(** * gtsam_unstable/nonlinear: CallRecord.h and NonlinearConstraint.h

    A shallow embedding of the reverse-mode dispatch layer ([CallRecord],
    [ReverseADInterface], [ReverseADImplementor], [ConvertToDynamicRowsIf])
    and of the equality-constraint classes ([NonlinearEqualityConstraint],
    [NonlinearEqualityConstraint1/2/3]) together with the properties of
    their behaviour. *)

From Stdlib Require Import ZArith List Bool String Lia PeanoNat FinFun.
Import ListNotations.

Set Implicit Arguments.
Set Warnings "-notation-for-abbreviation".

(* ====================================================================== *)
(** * Part I: CallRecord.h *)
(* ====================================================================== *)

Module CallRecord.

Local Open Scope Z_scope.

(** [Eigen::Dynamic]: the compile-time size of a dimension only known at
    run time. *)
Definition Dynamic : Z := -1.

(** [const int MaxVirtualStaticRows = 4;] *)
Definition MaxVirtualStaticRows : Z := 4.

Section Dispatch.

(** [double]; the dispatch layer only moves coefficients around. *)
Variable Scalar : Type.

(** [class JacobianMap;] is only forward declared in the header. *)
Variable JacobianMap : Type.

(** The data members of the concrete node (the CRTP [Derived]). *)
Variable Self : Type.

(** [Eigen::Matrix<double, Rows, Cols>]: a dense block.  The two template
    arguments are kept as tags next to the coefficients (row major), so
    that overload resolution and template deduction can inspect them. *)
Record Matrix : Type := mkMatrix {
  RowsAtCompileTime : Z;
  ColsAtCompileTime : Z;
  coeffs : list (list Scalar)
}.

Definition rows (x : Matrix) : nat := List.length (coeffs x).

(** ** ConvertToDynamicRowsIf *)

(** [ConvertToDynamicRowsIf<true>::convert] returns by value an
    [Eigen::Matrix<double, Eigen::Dynamic, Derived::ColsAtCompileTime>]
    built from [x]; the specialisation for [false] returns the reference
    it was given. *)
Definition ConvertToDynamicRowsIf (ConvertToDynamicRows : bool) (x : Matrix)
  : Matrix :=
  if ConvertToDynamicRows
  then {| RowsAtCompileTime := Dynamic;
          ColsAtCompileTime := ColsAtCompileTime x;
          coeffs := coeffs x |}
  else x.

(** ** Virtual member functions *)

(** The virtual member functions of the hierarchy.  [_reverseAD Rows Cols]
    is the overload taking [const Eigen::Matrix<double, Rows, Cols> &];
    [gtsam::Matrix] is [Eigen::Matrix<double, Dynamic, Dynamic>]. *)
Inductive Slot : Type :=
| _reverseAD (Rows Cols : Z)
| _print
| _startReverseAD.

Definition Slot_eqb (a b : Slot) : bool :=
  match a, b with
  | _reverseAD r c, _reverseAD r' c' => (r =? r') && (c =? c')
  | _print, _print => true
  | _startReverseAD, _startReverseAD => true
  | _, _ => false
  end.

(** Bodies of [const] member functions: they read the object and, where
    one is passed by reference, produce the new [JacobianMap].  [print]
    yields the text it writes. *)
Inductive Body : Type :=
| body_reverseAD (f : Self -> Matrix -> JacobianMap -> JacobianMap)
| body_print (f : Self -> string -> string)
| body_startReverseAD (f : Self -> JacobianMap -> JacobianMap).

(** A class, seen through its virtual member functions in declaration
    order: [None] is a pure virtual one ([= 0]), [Some b] its final
    overrider. *)
Definition Class : Type := list (Slot * option Body).

Definition slots (cls : Class) : list Slot := map fst cls.

(** Final overrider of a virtual member function. *)
Fixpoint final_overrider (s : Slot) (cls : Class) : option Body :=
  match cls with
  | [] => None
  | (s', b) :: rest =>
      if Slot_eqb s s' then b else final_overrider s rest
  end.

(** A derived class defining the virtual member function [s]. *)
Definition override (s : Slot) (b : Body) (base : Class) : Class :=
  map (fun e => if Slot_eqb s (fst e) then (fst e, Some b) else e) base.

(** A class with a pure virtual member function is abstract and cannot be
    instantiated. *)
Definition is_abstract (cls : Class) : bool :=
  existsb (fun e => match snd e with None => true | Some _ => false end) cls.

(** ** ReverseADInterface *)

(** [ReverseADInterface<MaxSupportedStaticRows, Cols>]: the primary
    template derives from level [MaxSupportedStaticRows - 1] and declares
    one more pure virtual overload; the specialisation for [0] declares
    the two dynamic ones. *)
Fixpoint ReverseADInterface (MaxSupportedStaticRows : nat) (Cols : Z)
  : Class :=
  match MaxSupportedStaticRows with
  | O => [ (_reverseAD Dynamic Cols, None);
           (_reverseAD Dynamic Dynamic, None) ]
  | S n => ReverseADInterface n Cols
           ++ [ (_reverseAD (Z.of_nat (S n)) Cols, None) ]
  end.

(** ** CallRecord *)

(** [CallRecord<Cols>] derives from
    [ReverseADInterface<MaxVirtualStaticRows, Cols>] and declares the pure
    virtual [_print] and [_startReverseAD]. *)
Definition CallRecord (Cols : Z) : Class :=
  ReverseADInterface (Z.to_nat MaxVirtualStaticRows) Cols
  ++ [ (_print, None); (_startReverseAD, None) ].

(** The non-virtual member functions a concrete node supplies:
    [Derived::print], [Derived::startReverseAD] and the member template
    [Derived::reverseAD], which is instantiated at the type of its
    argument. *)
Record Derived : Type := mkDerived {
  Derived_print : Self -> string -> string;
  Derived_startReverseAD : Self -> JacobianMap -> JacobianMap;
  Derived_reverseAD : Self -> Matrix -> JacobianMap -> JacobianMap
}.

(** ** ReverseADImplementor and CallRecordImplementor *)

(** [ReverseADImplementor<Derived, MaxSupportedStaticRows, Cols>]: level
    [0] derives from [CallRecord<Cols>] and defines the two dynamic
    overloads; every other level defines the overload of its own row
    count.  Each body is [derived().reverseAD(dFdT, jacobians)]. *)
Fixpoint ReverseADImplementor (D : Derived) (MaxSupportedStaticRows : nat)
  (Cols : Z) : Class :=
  match MaxSupportedStaticRows with
  | O =>
      override (_reverseAD Dynamic Dynamic)
        (body_reverseAD (Derived_reverseAD D))
        (override (_reverseAD Dynamic Cols)
           (body_reverseAD (Derived_reverseAD D))
           (CallRecord Cols))
  | S n =>
      override (_reverseAD (Z.of_nat (S n)) Cols)
        (body_reverseAD (Derived_reverseAD D))
        (ReverseADImplementor D n Cols)
  end.

(** [CallRecordImplementor<Derived, Cols>] derives from
    [ReverseADImplementor<Derived, MaxVirtualStaticRows, Cols>] and defines
    [_print] and [_startReverseAD]. *)
Definition CallRecordImplementor (D : Derived) (Cols : Z) : Class :=
  override _startReverseAD (body_startReverseAD (Derived_startReverseAD D))
    (override _print (body_print (Derived_print D))
       (ReverseADImplementor D (Z.to_nat MaxVirtualStaticRows) Cols)).

(** ** Overload resolution of [_reverseAD] *)

(** An overload whose parameter type is the type of the argument. *)
Definition parameter_matches (arg : Matrix) (s : Slot) : bool :=
  match s with
  | _reverseAD r c =>
      (r =? RowsAtCompileTime arg) && (c =? ColsAtCompileTime arg)
  | _ => false
  end.

(** The overloads of [_reverseAD] visible in [CallRecord<Cols>] (through
    the using-declaration) that take the argument as it is. *)
Definition viable_reverseAD (Cols : Z) (arg : Matrix) : list Slot :=
  filter (parameter_matches arg)
    (slots (ReverseADInterface (Z.to_nat MaxVirtualStaticRows) Cols)).

(** The call is well formed when one overload is selected. *)
Definition resolve_reverseAD (Cols : Z) (arg : Matrix) : option Slot :=
  match viable_reverseAD Cols arg with
  | [s] => Some s
  | _ => None
  end.

(** ** Objects and the public member functions of CallRecord *)

(** A Recorder: an object of a class derived from [CallRecord<Cols>]. *)
Record Object : Type := mkObject {
  dynamic_type : Class;
  this : Self
}.

(** What a call can touch: the Recorder it is made on and the
    [JacobianMap] handed over by reference. *)
Record World : Type := mkWorld {
  recorder : Object;
  jacobians : JacobianMap
}.

(** [inline void print(const std::string& indent) const]: calls the
    virtual [_print].  The result pairs the world after the call with the
    text produced. *)
Definition print (indent : string) (w : World) : option (World * string) :=
  match final_overrider _print (dynamic_type (recorder w)) with
  | Some (body_print f) => Some (w, f (this (recorder w)) indent)
  | _ => None
  end.

(** [inline void startReverseAD(JacobianMap& jacobians) const]. *)
Definition startReverseAD (w : World) : option World :=
  match final_overrider _startReverseAD (dynamic_type (recorder w)) with
  | Some (body_startReverseAD f) =>
      Some {| recorder := recorder w;
              jacobians := f (this (recorder w)) (jacobians w) |}
  | _ => None
  end.

(** The argument handed to [_reverseAD] inside [CallRecord::reverseAD]. *)
Definition converted (dFdT : Matrix) : Matrix :=
  ConvertToDynamicRowsIf (RowsAtCompileTime dFdT >? MaxVirtualStaticRows)
    dFdT.

(** A call of the virtual overload [s] of [_reverseAD] on the Recorder of
    [w]; [None] when [s] has no final overrider there. *)
Definition call_virtual_reverseAD (s : Slot) (arg : Matrix) (w : World)
  : option World :=
  match final_overrider s (dynamic_type (recorder w)) with
  | Some (body_reverseAD f) =>
      Some {| recorder := recorder w;
              jacobians := f (this (recorder w)) arg (jacobians w) |}
  | _ => None
  end.

(** [template<int Rows> inline void reverseAD(
       const Eigen::Matrix<double, Rows, Cols> & dFdT,
       JacobianMap& jacobians) const].
    [Rows] is deduced from the argument, whose column count has to be the
    [Cols] of the class; [None] stands for a call that does not compile
    or that reaches a pure virtual function. *)
Definition reverseAD (Cols : Z) (dFdT : Matrix) (w : World) : option World :=
  if ColsAtCompileTime dFdT =? Cols then
    match resolve_reverseAD Cols (converted dFdT) with
    | Some s => call_virtual_reverseAD s (converted dFdT) w
    | None => None
    end
  else None.

(** A class derived from [base] that defines the listed virtual member
    functions, one after the other. *)
Definition derive (definitions : list (Slot * Body)) (base : Class) : Class :=
  fold_left (fun cls d => override (fst d) (snd d) cls) definitions base.

(** A Recorder of the class [CallRecordImplementor<Derived, Cols>]. *)
Definition Recorder (D : Derived) (Cols : Z) (self : Self) : Object :=
  {| dynamic_type := CallRecordImplementor D Cols; this := self |}.

(** [Derived::reverseAD] is one routine for all row counts: what it does
    depends on the coefficients of the block, not on how its row count is
    typed. *)
Definition row_count_generic (D : Derived) : Prop :=
  forall (self : Self) (a b : Matrix) (jac : JacobianMap),
    coeffs a = coeffs b ->
    Derived_reverseAD D self a jac = Derived_reverseAD D self b jac.

(** The virtual member functions a class leaves pure, in declaration
    order. *)
Definition pure_virtual_slots (cls : Class) : list Slot :=
  map fst
    (filter (fun e => match snd e with None => true | Some _ => false end)
       cls).

End Dispatch.

End CallRecord.

(* ====================================================================== *)
(** * Part II: NonlinearConstraint.h *)
(* ====================================================================== *)

Module NonlinearConstraint.

(** [gtsam::Key], an unsigned index. *)
Definition Key : Type := N.

(** ** Outcomes of a member function *)

Inductive Exception : Type :=
| runtime_error (what : string)   (* [std::runtime_error(what)] *)
| key_not_found (j : Key)         (* raised inside [at] of a container *)
| invalid_argument (what : string). (* [std::invalid_argument(what)] *)

(** A call returns, leaves through an exception, or has no defined
    behaviour (an access past the end of a [std::vector]). *)
Inductive Outcome (A : Type) : Type :=
| Returned (a : A)
| Threw (e : Exception)
| Undefined.

Arguments Threw {A} e.
Arguments Undefined {A}.

(** What a call of [multipliedHessian] does to its collaborators. *)
Inductive Event : Type :=
| ValuesAt (j : Key)          (* [x.at<X>(j)] *)
| DualsAt (j : Key)           (* [duals.at(j)] *)
| EvaluateHessians.           (* [evaluateHessians(...)] *)

(** Computations: an outcome together with the calls made so far. *)
Definition M (A : Type) : Type := list Event -> Outcome A * list Event.

Definition ret {A} (a : A) : M A := fun tr => (Returned a, tr).

Definition bind {A B} (m : M A) (k : A -> M B) : M B :=
  fun tr =>
    match m tr with
    | (Returned a, tr') => k a tr'
    | (Threw e, tr') => (Threw e, tr')
    | (Undefined, tr') => (Undefined, tr')
    end.

Definition throw {A} (e : Exception) : M A := fun tr => (Threw e, tr).

Definition undefined {A} : M A := fun tr => (Undefined, tr).

Definition emit (ev : Event) : M unit := fun tr => (Returned tt, tr ++ [ev]).

Notation "x <- m ;; k" := (bind m (fun x => k))
  (at level 61, m at next level, right associativity).
Notation "m ;;; k" := (bind m (fun _ => k))
  (at level 61, right associativity).

(** [v[i]] on a [std::vector] or an Eigen vector: defined inside the
    bounds only. *)
Definition subscript {A} (v : list A) (i : nat) : M A :=
  match nth_error v i with
  | Some a => ret a
  | None => undefined
  end.

(** [for (int i = 0; i < n; ++i) body] with the loop state [s]. *)
Fixpoint for_from {S} (i count : nat) (body : nat -> S -> M S) (s : S)
  : M S :=
  match count with
  | O => ret s
  | Datatypes.S k => s' <- body i s ;; for_from (Datatypes.S i) k body s'
  end.

Definition for_loop {S} (n : nat) (body : nat -> S -> M S) (s : S) : M S :=
  for_from 0 n body s.

(** The same loop for a body that cannot fail. *)
Fixpoint iterate_from {S} (i count : nat) (body : nat -> S -> S) (s : S)
  : S :=
  match count with
  | O => s
  | Datatypes.S k => iterate_from (Datatypes.S i) k body (body i s)
  end.

Definition iterate {S} (n : nat) (body : nat -> S -> S) (s : S) : S :=
  iterate_from 0 n body s.

(** A computation that calls no collaborator, whatever its outcome. *)
Definition quiet {A} (m : M A) : Prop :=
  forall tr, snd (m tr) = tr.

(** ** The collaborators declared in other headers *)

(** Eigen's dense algebra on [double], [gtsam::Values] and
    [gtsam::VectorValues] come from headers this one includes; the classes
    below are stated over any implementation of them.  [Values_at] and
    [VectorValues_at] answer [None] where [at] raises. *)
Class Env : Type := {
  Scalar : Type;                               (* [double] *)
  double_of_Z : Z -> Scalar;                   (* the literals 0.0, 100.0 *)
  Scalar_opp : Scalar -> Scalar;               (* unary minus *)
  Matrix : Type;                               (* [gtsam::Matrix] *)
  Matrix_rows : Matrix -> nat;                 (* [rows()] *)
  Matrix_cols : Matrix -> nat;                 (* [cols()] *)
  zeros : nat -> nat -> Matrix;                (* [zeros(m, n)] *)
  Matrix_add : Matrix -> Matrix -> Matrix;     (* [A + B] *)
  Matrix_scale : Scalar -> Matrix -> Matrix;   (* [s * A] *)
  Value : Type;                                (* the VALUE types *)
  Values : Type;
  Values_at : Values -> Key -> option Value;
  VectorValues : Type;
  VectorValues_at : VectorValues -> Key -> option (list Scalar)
}.

(** [A.block(i, j, p, q)] of Eigen: the [p x q] block of [A] whose first
    coefficient is at row [i] and column [j]. *)
Class BlockEnv (E : Env) : Type := {
  Matrix_block : Matrix -> nat -> nat -> nat -> nat -> Matrix
}.

Section Constraints.

Context {E : Env}.

(** [gtsam::Vector], with [dim(v)] and [v.rows()] its length. *)
Definition Vector : Type := list Scalar.

Definition dim (v : Vector) : nat := List.length v.

(** [zero(n)]: the vector of [n] zeros. *)
Definition zero (n : nat) : Vector := repeat (double_of_Z 0) n.

(** [x.at<X>(j)] *)
Definition at_Values (x : Values) (j : Key) : M Value :=
  emit (ValuesAt j) ;;;
  match Values_at x j with
  | Some v => ret v
  | None => throw (key_not_found j)
  end.

(** [duals.at(j)] *)
Definition at_VectorValues (duals : VectorValues) (j : Key) : M Vector :=
  emit (DualsAt j) ;;;
  match VectorValues_at duals j with
  | Some v => ret v
  | None => throw (key_not_found j)
  end.

(** Two matrices with the same number of rows and of columns. *)
Definition same_shape (A B : Matrix) : bool :=
  (Matrix_rows A =? Matrix_rows B)%nat && (Matrix_cols A =? Matrix_cols B)%nat.

(** [A += B] of Eigen: defined when [B] has the shape of [A]; otherwise
    the assertion of Eigen fails. *)
Definition add_assign (A B : Matrix) : M Matrix :=
  if same_shape A B then ret (Matrix_add A B) else undefined.

(** [lGsum += -lambda[i] * G[i];] *)
Definition add_scaled (lambda : Vector) (G : list Matrix) (i : nat)
  (lGsum : Matrix) : M Matrix :=
  l <- subscript lambda i ;;
  Gi <- subscript G i ;;
  add_assign lGsum (Matrix_scale (Scalar_opp l) Gi).

(** A matrix with [r] rows and [c] columns, and a list of such blocks. *)
Definition has_shape (r c : nat) (A : Matrix) : bool :=
  (Matrix_rows A =? r)%nat && (Matrix_cols A =? c)%nat.

Definition all_shaped (r c : nat) (G : list Matrix) : bool :=
  forallb (has_shape r c) G.

(** What the statements below need of Eigen: zeros of the shape of a
    matrix have that shape, a scalar multiple has the shape of its
    operand, a sum of two matrices of one shape has that shape. *)
Record EigenShapes : Prop := {
  zeros_shape : forall A : Matrix,
    same_shape (zeros (Matrix_rows A) (Matrix_cols A)) A = true;
  scale_shape : forall (s : Scalar) (A : Matrix),
    same_shape (Matrix_scale s A) A = true;
  add_shape : forall A B : Matrix,
    same_shape A B = true -> same_shape (Matrix_add A B) A = true
}.

(** [zeros(G[0].rows(), G[0].cols())] *)
Definition zeros_like_first (G : list Matrix) : M Matrix :=
  G0 <- subscript G 0 ;;
  G0' <- subscript G 0 ;;
  ret (zeros (Matrix_rows G0) (Matrix_cols G0')).

(** The sum [z - lambda[0] * G[0] - lambda[1] * G[1] - ...], added up in
    that order, over the components [lambda] and [G] both have. *)
Definition weighted_sum (lambda : Vector) (G : list Matrix) (z : Matrix)
  : Matrix :=
  fold_left
    (fun acc lG =>
       Matrix_add acc (Matrix_scale (Scalar_opp (fst lG)) (snd lG)))
    (combine lambda G) z.

(** [gtsam::HessianFactor], as built by its constructors for one, two and
    three variables: the keys in the order given, the upper-triangular
    blocks row by row, the linear terms and the constant. *)
Record HessianFactor : Type := mkHessianFactor {
  keys : list Key;
  G_blocks : list Matrix;
  g_terms : list Vector;
  f_term : Scalar
}.

(** [HessianFactor(j, G, g, f)] *)
Definition HessianFactor_1 (j : Key) (G : Matrix) (g : Vector) (f : Scalar)
  : HessianFactor :=
  {| keys := [j]; G_blocks := [G]; g_terms := [g]; f_term := f |}.

(** [HessianFactor(j1, j2, G11, G12, g1, G22, g2, f)] *)
Definition HessianFactor_2 (j1 j2 : Key) (G11 G12 : Matrix) (g1 : Vector)
  (G22 : Matrix) (g2 : Vector) (f : Scalar) : HessianFactor :=
  {| keys := [j1; j2]; G_blocks := [G11; G12; G22]; g_terms := [g1; g2];
     f_term := f |}.

(** [HessianFactor(j1, j2, j3, G11, G12, G13, g1, G22, G23, g2, G33, g3, f)] *)
Definition HessianFactor_3 (j1 j2 j3 : Key) (G11 G12 G13 : Matrix)
  (g1 : Vector) (G22 G23 : Matrix) (g2 : Vector) (G33 : Matrix)
  (g3 : Vector) (f : Scalar) : HessianFactor :=
  {| keys := [j1; j2; j3];
     G_blocks := [G11; G12; G13; G22; G23; G33];
     g_terms := [g1; g2; g3];
     f_term := f |}.

(** A computation that returns [a] and calls no collaborator. *)
Definition yields {A} (m : M A) (a : A) : Prop :=
  forall tr, m tr = (Returned a, tr).

(** The dimension check as a property of the outcome [r] of
    [multipliedHessian], given the dual vector and the sizes of the block
    lists handed back by [evaluateHessians]: an exception leaves exactly
    when one of the sizes differs from the dimension of [lambda], and a
    factor is returned otherwise. *)
Definition checks_dimension (r : Outcome (option HessianFactor))
  (lambda : Vector) (sizes : list nat) : Prop :=
  ((exists e, r = Threw e) <-> exists n, In n sizes /\ dim lambda <> n)
  /\ ((forall n, In n sizes -> dim lambda = n) ->
      exists hf, r = Returned (Some hf)).

(** The constructors of [gtsam::HessianFactor] refuse blocks and vectors
    whose dimensions do not fit together: block [Gab] has to be
    [da x db] and vector [ga] of size [da], for one dimension [da] per
    key. *)
Definition inconsistent_dimensions : string :=
  "Inconsistent matrix and/or vector dimensions in HessianFactor constructor".

Definition square_with (G : Matrix) (g : Vector) : bool :=
  (Matrix_rows G =? Matrix_cols G)%nat && (Matrix_rows G =? dim g)%nat.

Definition between (Gab Gaa Gbb : Matrix) : bool :=
  (Matrix_rows Gab =? Matrix_rows Gaa)%nat
  && (Matrix_cols Gab =? Matrix_cols Gbb)%nat.

(** [new HessianFactor(j, G, g, f)] *)
Definition new_HessianFactor_1 (j : Key) (G : Matrix) (g : Vector)
  (f : Scalar) : M HessianFactor :=
  if square_with G g then ret (HessianFactor_1 j G g f)
  else throw (invalid_argument inconsistent_dimensions).

(** [new HessianFactor(j1, j2, G11, G12, g1, G22, g2, f)] *)
Definition new_HessianFactor_2 (j1 j2 : Key) (G11 G12 : Matrix)
  (g1 : Vector) (G22 : Matrix) (g2 : Vector) (f : Scalar)
  : M HessianFactor :=
  if square_with G11 g1 && square_with G22 g2 && between G12 G11 G22
  then ret (HessianFactor_2 j1 j2 G11 G12 g1 G22 g2 f)
  else throw (invalid_argument inconsistent_dimensions).

(** [new HessianFactor(j1, j2, j3, G11, G12, G13, g1, G22, G23, g2, G33,
    g3, f)] *)
Definition new_HessianFactor_3 (j1 j2 j3 : Key) (G11 G12 G13 : Matrix)
  (g1 : Vector) (G22 G23 : Matrix) (g2 : Vector) (G33 : Matrix)
  (g3 : Vector) (f : Scalar) : M HessianFactor :=
  if square_with G11 g1 && square_with G22 g2 && square_with G33 g3
     && between G12 G11 G22 && between G13 G11 G33 && between G23 G22 G33
  then ret (HessianFactor_3 j1 j2 j3 G11 G12 G13 g1 G22 G23 g2 G33 g3 f)
  else throw (invalid_argument inconsistent_dimensions).

(** The message of the exception thrown by the three classes. *)
Definition dimension_error : string :=
  "Error in evaluateHessians: the number of returned Gij matrices must be the same as the constraint dimension!".

(** ** NonlinearEqualityConstraint *)

Record NonlinearEqualityConstraint : Type := mkNonlinearEqualityConstraint {
  dualKey_ : Key;
  active_ : bool
}.

(** [virtual bool isActive_() const] *)
Definition isActive_ (c : NonlinearEqualityConstraint) : bool := true.

(** [void setActive_(bool active_)] *)
Definition setActive_ (active : bool) (c : NonlinearEqualityConstraint)
  : NonlinearEqualityConstraint :=
  {| dualKey_ := dualKey_ c; active_ := active |}.

(** [Key dualKey() const] *)
Definition dualKey (c : NonlinearEqualityConstraint) : Key := dualKey_ c.

End Constraints.

(** ** NonlinearEqualityConstraint1 *)

Module NonlinearEqualityConstraint1.
Section Class1.

Context {E : Env}.

(** An object of a class derived from [NonlinearEqualityConstraint1<VALUE>]:
    the base sub-objects' data and the virtual member functions a derived
    class may define. *)
Record t : Type := mk {
  base : NonlinearEqualityConstraint;
  key : Key;                                  (* [Base::key()] *)
  X1Dim : nat;                                (* [traits<VALUE>::dimension] *)
  active : Values -> bool;                    (* [virtual bool active(x)] *)
  evaluateHessians : Value -> list Matrix     (* fills the empty [G11] *)
}.

Definition call_evaluateHessians (c : t) (x1 : Value) : M (list Matrix) :=
  emit EvaluateHessians ;;; ret (evaluateHessians c x1).

(** [virtual GaussianFactor::shared_ptr multipliedHessian(const Values& x,
       const VectorValues& duals) const]; [None] is the empty pointer. *)
Definition multipliedHessian (c : t) (x : Values) (duals : VectorValues)
  : M (option HessianFactor) :=
  if negb (active c x) then ret None
  else
    x1 <- at_Values x (key c) ;;
    lambda <- at_VectorValues duals (dualKey (base c)) ;;
    G11 <- call_evaluateHessians c x1 ;;
    if negb (dim lambda =? List.length G11)%nat
    then throw (runtime_error dimension_error)
    else
      lG11sum0 <- zeros_like_first G11 ;;
      lG11sum <- for_loop (dim lambda) (add_scaled lambda G11) lG11sum0 ;;
      hf <- new_HessianFactor_1 (key c) lG11sum (zero (X1Dim c))
              (double_of_Z 100) ;;
      ret (Some hf).

Context {B : BlockEnv E}.

(** The [evaluateHessians] of the class itself.  [G11all] stands for
    [numericalDerivative11(vecH1, x1, 1e-5)], [noiseModel_dim] for
    [Base::get_noiseModel()->dim()] and [G11] for the vector passed in by
    reference. *)
Definition evaluateHessians_default (noiseModel_dim X1Dim : nat)
  (G11all : Matrix) (G11 : list Matrix) : list Matrix :=
  iterate noiseModel_dim
    (fun i G11 => G11 ++ [Matrix_block G11all (i * X1Dim) 0 X1Dim X1Dim])
    G11.

End Class1.
End NonlinearEqualityConstraint1.

(** ** NonlinearEqualityConstraint2 *)

Module NonlinearEqualityConstraint2.
Section Class2.

Context {E : Env}.

(** The blocks handed back through [G11], [G12] and [G22]. *)
Record Hessians : Type := mkHessians {
  G11 : list Matrix;
  G12 : list Matrix;
  G22 : list Matrix
}.

Record t : Type := mk {
  base : NonlinearEqualityConstraint;
  key1 : Key;                                 (* [Base::key1()] *)
  key2 : Key;                                 (* [Base::key2()] *)
  X1Dim : nat;
  X2Dim : nat;
  active : Values -> bool;
  evaluateHessians : Value -> Value -> Hessians
}.

Definition call_evaluateHessians (c : t) (x1 x2 : Value) : M Hessians :=
  emit EvaluateHessians ;;; ret (evaluateHessians c x1 x2).

(** The sums [lG11sum], [lG12sum], [lG22sum]. *)
Record Sums : Type := mkSums {
  lG11sum : Matrix;
  lG12sum : Matrix;
  lG22sum : Matrix
}.

(** The body of the loop over the components of [lambda]. *)
Definition loop_body (lambda : Vector) (G : Hessians) (i : nat) (s : Sums)
  : M Sums :=
  s11 <- add_scaled lambda (G11 G) i (lG11sum s) ;;
  s12 <- add_scaled lambda (G12 G) i (lG12sum s) ;;
  s22 <- add_scaled lambda (G22 G) i (lG22sum s) ;;
  ret {| lG11sum := s11; lG12sum := s12; lG22sum := s22 |}.

Definition multipliedHessian (c : t) (x : Values) (duals : VectorValues)
  : M (option HessianFactor) :=
  if negb (active c x) then ret None
  else
    x1 <- at_Values x (key1 c) ;;
    x2 <- at_Values x (key2 c) ;;
    lambda <- at_VectorValues duals (dualKey (base c)) ;;
    G <- call_evaluateHessians c x1 x2 ;;
    if negb (dim lambda =? List.length (G11 G))%nat
       || negb (dim lambda =? List.length (G12 G))%nat
       || negb (dim lambda =? List.length (G22 G))%nat
    then throw (runtime_error dimension_error)
    else
      z11 <- zeros_like_first (G11 G) ;;
      z12 <- zeros_like_first (G12 G) ;;
      z22 <- zeros_like_first (G22 G) ;;
      s <- for_loop (dim lambda) (loop_body lambda G)
             {| lG11sum := z11; lG12sum := z12; lG22sum := z22 |} ;;
      hf <- new_HessianFactor_2 (key1 c) (key2 c) (lG11sum s) (lG12sum s)
              (zero (X1Dim c)) (lG22sum s) (zero (X2Dim c))
              (double_of_Z 0) ;;
      ret (Some hf).

Context {B : BlockEnv E}.

(** The [evaluateHessians] of the class itself.  [G11all], [G12all] and
    [G22all] stand for the three numerical derivatives, [noiseModel_dim]
    for [Base::get_noiseModel()->dim()] and [G] for the vectors passed in
    by reference. *)
Definition evaluateHessians_default (noiseModel_dim X1Dim X2Dim : nat)
  (G11all G12all G22all : Matrix) (G : Hessians) : Hessians :=
  iterate noiseModel_dim
    (fun i G =>
       {| G11 := G11 G ++ [Matrix_block G11all (i * X1Dim) 0 X1Dim X1Dim];
          G12 := G12 G ++ [Matrix_block G12all (i * X1Dim) 0 X1Dim X2Dim];
          G22 := G22 G ++ [Matrix_block G22all (i * X2Dim) 0 X2Dim X2Dim] |})
    G.

End Class2.
End NonlinearEqualityConstraint2.

(** ** NonlinearEqualityConstraint3 *)

Module NonlinearEqualityConstraint3.
Section Class3.

Context {E : Env}.

(** The blocks handed back through [G11] ... [G33]. *)
Record Hessians : Type := mkHessians {
  G11 : list Matrix;
  G12 : list Matrix;
  G13 : list Matrix;
  G22 : list Matrix;
  G23 : list Matrix;
  G33 : list Matrix
}.

Record t : Type := mk {
  base : NonlinearEqualityConstraint;
  key1 : Key;                                 (* [Base::key1()] *)
  key2 : Key;                                 (* [Base::key2()] *)
  key3 : Key;                                 (* [Base::key3()] *)
  X1Dim : nat;
  X2Dim : nat;
  X3Dim : nat;
  active : Values -> bool;
  evaluateHessians : Value -> Value -> Value -> Hessians
}.

Definition call_evaluateHessians (c : t) (x1 x2 x3 : Value) : M Hessians :=
  emit EvaluateHessians ;;; ret (evaluateHessians c x1 x2 x3).

Record Sums : Type := mkSums {
  lG11sum : Matrix;
  lG12sum : Matrix;
  lG13sum : Matrix;
  lG22sum : Matrix;
  lG23sum : Matrix;
  lG33sum : Matrix
}.

Definition loop_body (lambda : Vector) (G : Hessians) (i : nat) (s : Sums)
  : M Sums :=
  s11 <- add_scaled lambda (G11 G) i (lG11sum s) ;;
  s12 <- add_scaled lambda (G12 G) i (lG12sum s) ;;
  s13 <- add_scaled lambda (G13 G) i (lG13sum s) ;;
  s22 <- add_scaled lambda (G22 G) i (lG22sum s) ;;
  s23 <- add_scaled lambda (G23 G) i (lG23sum s) ;;
  s33 <- add_scaled lambda (G33 G) i (lG33sum s) ;;
  ret {| lG11sum := s11; lG12sum := s12; lG13sum := s13;
         lG22sum := s22; lG23sum := s23; lG33sum := s33 |}.

(** The constructor call passes [Base::key2()] for both the first and the
    second key. *)
Definition multipliedHessian (c : t) (x : Values) (duals : VectorValues)
  : M (option HessianFactor) :=
  if negb (active c x) then ret None
  else
    x1 <- at_Values x (key1 c) ;;
    x2 <- at_Values x (key2 c) ;;
    x3 <- at_Values x (key3 c) ;;
    lambda <- at_VectorValues duals (dualKey (base c)) ;;
    G <- call_evaluateHessians c x1 x2 x3 ;;
    if negb (dim lambda =? List.length (G11 G))%nat
       || negb (dim lambda =? List.length (G12 G))%nat
       || negb (dim lambda =? List.length (G13 G))%nat
       || negb (dim lambda =? List.length (G22 G))%nat
       || negb (dim lambda =? List.length (G23 G))%nat
       || negb (dim lambda =? List.length (G33 G))%nat
    then throw (runtime_error dimension_error)
    else
      z11 <- zeros_like_first (G11 G) ;;
      z12 <- zeros_like_first (G12 G) ;;
      z13 <- zeros_like_first (G13 G) ;;
      z22 <- zeros_like_first (G22 G) ;;
      z23 <- zeros_like_first (G23 G) ;;
      z33 <- zeros_like_first (G33 G) ;;
      s <- for_loop (dim lambda) (loop_body lambda G)
             {| lG11sum := z11; lG12sum := z12; lG13sum := z13;
                lG22sum := z22; lG23sum := z23; lG33sum := z33 |} ;;
      hf <- new_HessianFactor_3 (key2 c) (key2 c) (key3 c)
              (lG11sum s) (lG12sum s) (lG13sum s) (zero (X1Dim c))
              (lG22sum s) (lG23sum s) (zero (X2Dim c))
              (lG33sum s) (zero (X3Dim c)) (double_of_Z 0) ;;
      ret (Some hf).

Context {B : BlockEnv E}.

(** The [evaluateHessians] of the class itself.  [G11all] ... [G33all]
    stand for the six numerical derivatives, [noiseModel_dim] for
    [Base::get_noiseModel()->dim()] and [G] for the vectors passed in by
    reference. *)
Definition evaluateHessians_default (noiseModel_dim X1Dim X2Dim X3Dim : nat)
  (G11all G12all G13all G22all G23all G33all : Matrix) (G : Hessians)
  : Hessians :=
  iterate noiseModel_dim
    (fun i G =>
       {| G11 := G11 G ++ [Matrix_block G11all (i * X1Dim) 0 X1Dim X1Dim];
          G12 := G12 G ++ [Matrix_block G12all (i * X1Dim) 0 X1Dim X2Dim];
          G13 := G13 G ++ [Matrix_block G13all (i * X1Dim) 0 X1Dim X3Dim];
          G22 := G22 G ++ [Matrix_block G22all (i * X2Dim) 0 X2Dim X2Dim];
          G23 := G23 G ++ [Matrix_block G23all (i * X2Dim) 0 X2Dim X3Dim];
          G33 := G33 G ++ [Matrix_block G33all (i * X3Dim) 0 X3Dim X3Dim] |})
    G.

End Class3.
End NonlinearEqualityConstraint3.

End NonlinearConstraint.

(* ====================================================================== *)
(** * Part III: concrete nodes and constraints *)
(* ====================================================================== *)

Module Examples.

Import CallRecord.

Local Open Scope Z_scope.
Local Open Scope string_scope.

(** A [JacobianMap] over integer coefficients: the contributions added so
    far, newest first. *)
Definition Jacobians : Type := list (N * list (list Z)).

(** A leaf node holding the key of its variable: [reverseAD] adds the
    block it receives under that key. *)
Definition Leaf : Derived Z Jacobians N :=
  {| Derived_print := fun key indent => indent ++ "Leaf";
     Derived_startReverseAD := fun key jac => (key, [[1]]) :: jac;
     Derived_reverseAD := fun key dFdT jac => (key, coeffs dFdT) :: jac |}.

Definition leaf_world : World Z Jacobians N :=
  {| recorder := Recorder Leaf 3 7%N; jacobians := [] |}.

(** The same [1 x 3] values typed with one static row and with dynamic
    rows, and a block of five static rows. *)
Definition U_static : Matrix Z := mkMatrix 1 3 [[1; 2; 3]].
Definition U_dynamic : Matrix Z := mkMatrix Dynamic 3 [[1; 2; 3]].
Definition U_five : Matrix Z :=
  mkMatrix 5 3 [[1; 0; 0]; [0; 1; 0]; [0; 0; 1]; [1; 1; 1]; [2; 2; 2]].

(** The member functions [CallRecordImplementor<Leaf, 3>] and its bases
    define, in the order of the hierarchy. *)
Definition Leaf_definitions : list (Slot * Body Z Jacobians N) :=
  let leaf_reverseAD :=
    @body_reverseAD Z Jacobians N (Derived_reverseAD Leaf) in
  [ (_reverseAD Dynamic 3, leaf_reverseAD);
    (_reverseAD Dynamic Dynamic, leaf_reverseAD);
    (_reverseAD 1 3, leaf_reverseAD);
    (_reverseAD 2 3, leaf_reverseAD);
    (_reverseAD 3 3, leaf_reverseAD);
    (_reverseAD 4 3, leaf_reverseAD);
    (_print, @body_print Z Jacobians N (Derived_print Leaf));
    (_startReverseAD, @body_startReverseAD Z Jacobians N (Derived_startReverseAD Leaf)) ].

End Examples.

Module ConstraintExamples.

Import NonlinearConstraint.

Local Open Scope Z_scope.

(** Integer matrices, row major. *)
Definition ZMatrix : Type := list (list Z).

Definition ZMatrix_add (A B : ZMatrix) : ZMatrix :=
  map (fun ab => map (fun xy => fst xy + snd xy) (combine (fst ab) (snd ab)))
    (combine A B).

Definition ZMatrix_scale (s : Z) (A : ZMatrix) : ZMatrix :=
  map (map (Z.mul s)) A.

(** The collaborators over integers, with containers as partial
    functions of the key. *)
Definition ZEnv : Env :=
  {| Scalar := Z;
     double_of_Z := fun z => z;
     Scalar_opp := Z.opp;
     Matrix := ZMatrix;
     Matrix_rows := fun A => List.length A;
     Matrix_cols := fun A => List.length (hd [] A);
     zeros := fun m n => repeat (repeat 0 n) m;
     Matrix_add := ZMatrix_add;
     Matrix_scale := ZMatrix_scale;
     Value := Z;
     Values := Key -> option Z;
     Values_at := fun x j => x j;
     VectorValues := Key -> option (list Z);
     VectorValues_at := fun d j => d j |}.

(** Every variable has the value [5]. *)
Definition x0 : @Values ZEnv := fun _ => Some 5.

(** A dual vector of dimension one, and one of dimension zero. *)
Definition duals1 : @VectorValues ZEnv := fun _ => Some [3].
Definition duals0 : @VectorValues ZEnv := fun _ => Some [].

Definition base0 : NonlinearEqualityConstraint :=
  {| dualKey_ := 10%N; active_ := true |}.

(** One-variable constraints on variable [1]: with one [1 x 1] block per
    component, with no block at all, and one that is not active. *)
Definition c1 : @NonlinearEqualityConstraint1.t ZEnv :=
  NonlinearEqualityConstraint1.mk (E := ZEnv) base0 1%N 1
    (fun _ => true) (fun _ => [[[2]]]).

Definition c1_empty : @NonlinearEqualityConstraint1.t ZEnv :=
  NonlinearEqualityConstraint1.mk (E := ZEnv) base0 1%N 1
    (fun _ => true) (fun _ => []).

Definition c1_inactive : @NonlinearEqualityConstraint1.t ZEnv :=
  NonlinearEqualityConstraint1.mk (E := ZEnv) base0 1%N 1
    (fun _ => false) (fun _ => [[[2]]]).

(** Two-variable constraints on variables [1] and [2]. *)
Definition c2 : @NonlinearEqualityConstraint2.t ZEnv :=
  NonlinearEqualityConstraint2.mk (E := ZEnv) base0 1%N 2%N 1 1
    (fun _ => true)
    (fun _ _ => NonlinearEqualityConstraint2.mkHessians (E := ZEnv)
                  [[[2]]] [[[0]]] [[[4]]]).

Definition c2_inactive : @NonlinearEqualityConstraint2.t ZEnv :=
  NonlinearEqualityConstraint2.mk (E := ZEnv) base0 1%N 2%N 1 1
    (fun _ => false)
    (fun _ _ => NonlinearEqualityConstraint2.mkHessians (E := ZEnv)
                  [[[2]]] [[[0]]] [[[4]]]).

(** Three-variable constraints on variables [1], [2] and [3]. *)
Definition c3 : @NonlinearEqualityConstraint3.t ZEnv :=
  NonlinearEqualityConstraint3.mk (E := ZEnv) base0 1%N 2%N 3%N 1 1 1
    (fun _ => true)
    (fun _ _ _ => NonlinearEqualityConstraint3.mkHessians (E := ZEnv)
                    [[[2]]] [[[0]]] [[[1]]] [[[4]]] [[[0]]] [[[6]]]).

Definition c3_inactive : @NonlinearEqualityConstraint3.t ZEnv :=
  NonlinearEqualityConstraint3.mk (E := ZEnv) base0 1%N 2%N 3%N 1 1 1
    (fun _ => false)
    (fun _ _ _ => NonlinearEqualityConstraint3.mkHessians (E := ZEnv)
                    [[[2]]] [[[0]]] [[[1]]] [[[4]]] [[[0]]] [[[6]]]).

(** Blocks of integer matrices. *)
Definition ZBlock : BlockEnv ZEnv :=
  @Build_BlockEnv ZEnv
    (fun (A : ZMatrix) i j p q =>
       map (fun row => firstn q (skipn j row)) (firstn p (skipn i A))).

(** Values in which the variable [j] is missing, and empty dual vectors. *)
Definition x_without (j : Key) : @Values ZEnv :=
  fun k => if (k =? j)%N then None else Some 5.

Definition duals_none : @VectorValues ZEnv := fun _ => None.

(** A dual vector of dimension two. *)
Definition duals2 : @VectorValues ZEnv := fun _ => Some [3; -1].

(** A one-variable constraint of dimension two on a variable of dimension
    one, with its two Hessian blocks. *)
Definition c1_two : @NonlinearEqualityConstraint1.t ZEnv :=
  NonlinearEqualityConstraint1.mk (E := ZEnv) base0 1%N 1
    (fun _ => true) (fun _ => [[[2]]; [[7]]]).

End ConstraintExamples.

(* ====================================================================== *)
(** * Part IV: properties of CallRecord.h *)
(* ====================================================================== *)

Import CallRecord.

Unset Implicit Arguments.

Section DispatchProperties.

Local Open Scope Z_scope.

Variables Scalar JacobianMap Self : Type.

Local Notation Interface := (ReverseADInterface Scalar JacobianMap Self).
Local Notation K := (Z.to_nat MaxVirtualStaticRows).
Local Notation static_slots Cols n :=
  (map (fun r => _reverseAD (Z.of_nat r) Cols) (seq 1 n)).

(** ** Classes, overriding and final overriders *)

Lemma Slot_eqb_spec (a b : Slot) : reflect (a = b) (Slot_eqb a b).
Proof.
  destruct a as [r c| |], b as [r' c'| |]; simpl; try (constructor; congruence).
  destruct (Z.eqb_spec r r'), (Z.eqb_spec c c'); simpl; constructor; congruence.
Qed.

Lemma Slot_eqb_refl (a : Slot) : Slot_eqb a a = true.
Proof. destruct (Slot_eqb_spec a a); congruence. Qed.

Lemma Slot_eqb_neq (a b : Slot) : a <> b -> Slot_eqb a b = false.
Proof. destruct (Slot_eqb_spec a b); congruence. Qed.

Lemma slots_override (s : Slot) (b : Body Scalar JacobianMap Self) cls :
  slots (override s b cls) = slots cls.
Proof.
  unfold slots, override. rewrite map_map. apply map_ext.
  intros e. destruct (Slot_eqb s (fst e)); reflexivity.
Qed.

Lemma slots_derive (ds : list (Slot * Body Scalar JacobianMap Self)) cls :
  slots (derive ds cls) = slots cls.
Proof.
  unfold derive. revert cls.
  induction ds as [|d ds IH]; intros cls; simpl.
  - reflexivity.
  - rewrite IH. apply slots_override.
Qed.

Lemma final_overrider_declared (s : Slot) cls
  (b : Body Scalar JacobianMap Self) :
  final_overrider s cls = Some b -> In s (slots cls).
Proof.
  induction cls as [|[s' b'] cls IH]; simpl; [discriminate|].
  destruct (Slot_eqb_spec s s'); auto.
Qed.

Lemma final_overrider_override_same (s : Slot)
  (b : Body Scalar JacobianMap Self) cls :
  In s (slots cls) -> final_overrider s (override s b cls) = Some b.
Proof.
  induction cls as [|[s' b'] cls IH]; simpl; [tauto|].
  intros [->|Hin].
  - rewrite Slot_eqb_refl. simpl. now rewrite Slot_eqb_refl.
  - destruct (Slot_eqb_spec s s') as [->|Hne]; simpl.
    + now rewrite Slot_eqb_refl.
    + rewrite (Slot_eqb_neq _ _ Hne). auto.
Qed.

Lemma final_overrider_override_other (s s' : Slot)
  (b : Body Scalar JacobianMap Self) cls :
  s' <> s -> final_overrider s (override s' b cls) = final_overrider s cls.
Proof.
  intros Hne. induction cls as [|[s0 b0] cls IH]; simpl; [reflexivity|].
  destruct (Slot_eqb_spec s' s0) as [->|Hne0]; simpl.
  - rewrite Slot_eqb_neq by congruence. exact IH.
  - rewrite IH. reflexivity.
Qed.

(** A slot already bound to [b] stays bound to [b] when a derived class
    defines any slot with that same body. *)
Lemma final_overrider_override_keep (s s' : Slot)
  (b : Body Scalar JacobianMap Self) cls :
  final_overrider s cls = Some b ->
  final_overrider s (override s' b cls) = Some b.
Proof.
  intros H. destruct (Slot_eqb_spec s' s) as [->|Hne].
  - apply final_overrider_override_same.
    eapply final_overrider_declared; eauto.
  - rewrite final_overrider_override_other; auto.
Qed.

(** In a class that is not abstract every declared virtual member function
    has a final overrider. *)
Lemma concrete_class_complete cls (s : Slot) :
  is_abstract cls = false -> In s (slots cls) ->
  exists b : Body Scalar JacobianMap Self, final_overrider s cls = Some b.
Proof.
  induction cls as [|[s' b'] cls IH]; simpl; [tauto|].
  intros Habs Hin. apply orb_false_elim in Habs as [Hb Habs].
  destruct (Slot_eqb_spec s s') as [->|Hne].
  - destruct b' as [b'|]; [eauto|discriminate].
  - destruct Hin as [Heq|Hin]; [congruence|auto].
Qed.

(** ** The entry points of the interface *)

Lemma slots_app (c1 c2 : CallRecord.Class Scalar JacobianMap Self) :
  slots (c1 ++ c2) = slots c1 ++ slots c2.
Proof. apply map_app. Qed.

Lemma slots_ReverseADInterface (n : nat) (Cols : Z) :
  slots (Interface n Cols)
  = [_reverseAD Dynamic Cols; _reverseAD Dynamic Dynamic]
    ++ static_slots Cols n.
Proof.
  induction n as [|n IH].
  - reflexivity.
  - change (Interface (S n) Cols)
      with (Interface n Cols ++ [(_reverseAD (Z.of_nat (S n)) Cols, None)]).
    rewrite slots_app, IH, seq_S, map_app, <- app_assoc. reflexivity.
Qed.

Lemma length_ReverseADInterface (n : nat) (Cols : Z) :
  List.length (Interface n Cols) = (n + 2)%nat.
Proof.
  induction n as [|n IH]; simpl; [reflexivity|].
  rewrite length_app, IH. simpl. lia.
Qed.

Lemma ReverseADInterface_pure (n : nat) (Cols : Z) e :
  In e (Interface n Cols) -> snd e = None.
Proof.
  induction n as [|n IH]; simpl.
  - intros [<-|[<-|[]]]; reflexivity.
  - rewrite in_app_iff. simpl. intros [H|[<-|[]]]; auto.
Qed.

Lemma in_static_slots (Cols : Z) (n : nat) (r c : Z) :
  In (_reverseAD r c) (static_slots Cols n) <->
  c = Cols /\ 1 <= r <= Z.of_nat n.
Proof.
  rewrite in_map_iff. split.
  - intros (k & Hk & Hin). apply in_seq in Hin. inversion Hk; subst. lia.
  - intros (-> & Hr). exists (Z.to_nat r). split.
    + now rewrite Z2Nat.id by lia.
    + apply in_seq. lia.
Qed.

Lemma NoDup_static_slots (Cols : Z) (n : nat) : NoDup (static_slots Cols n).
Proof.
  apply Injective_map_NoDup; [|apply seq_NoDup].
  intros a b H. inversion H. lia.
Qed.

(** ** Overload resolution *)

Lemma filter_static_slots (arg : Matrix Scalar) (n : nat) :
  filter (parameter_matches arg) (static_slots (ColsAtCompileTime arg) n)
  = if (1 <=? RowsAtCompileTime arg) && (RowsAtCompileTime arg <=? Z.of_nat n)
    then [_reverseAD (RowsAtCompileTime arg) (ColsAtCompileTime arg)]
    else [].
Proof.
  induction n as [|n IH].
  - simpl. destruct (Z.leb_spec 1 (RowsAtCompileTime arg)),
      (Z.leb_spec (RowsAtCompileTime arg) 0); simpl; try reflexivity; lia.
  - rewrite seq_S, map_app, filter_app, IH.
    change (1 + n)%nat with (S n).
    cbn [map filter parameter_matches].
    rewrite Z.eqb_refl, andb_true_r.
    set (r := RowsAtCompileTime arg). set (m := Z.of_nat (S n)).
    assert (Hm : m = Z.of_nat n + 1) by (unfold m; lia).
    destruct (Z.eqb_spec m r) as [Heq|Hne].
    + rewrite <- Heq.
      destruct (Z.leb_spec 1 m), (Z.leb_spec m (Z.of_nat n)),
        (Z.leb_spec m m); simpl; try reflexivity; lia.
    + destruct (Z.leb_spec 1 r), (Z.leb_spec r (Z.of_nat n)),
        (Z.leb_spec r m); simpl; try reflexivity; lia.
Qed.

(** The overloads that take an argument whose column count is the one of
    the class. *)
Lemma viable_reverseAD_eq (arg : Matrix Scalar) :
  ColsAtCompileTime arg <> Dynamic ->
  viable_reverseAD JacobianMap Self (ColsAtCompileTime arg) arg
  = if RowsAtCompileTime arg =? Dynamic
    then [_reverseAD Dynamic (ColsAtCompileTime arg)]
    else if (1 <=? RowsAtCompileTime arg)
            && (RowsAtCompileTime arg <=? MaxVirtualStaticRows)
         then [_reverseAD (RowsAtCompileTime arg) (ColsAtCompileTime arg)]
         else [].
Proof.
  intros Hc. unfold viable_reverseAD.
  rewrite slots_ReverseADInterface, filter_app, filter_static_slots.
  cbn [filter parameter_matches app].
  rewrite Z.eqb_refl, andb_true_r.
  destruct (Z.eqb_spec Dynamic (ColsAtCompileTime arg)) as [Heq|_];
    [congruence|]. rewrite andb_false_r.
  rewrite (Z.eqb_sym Dynamic).
  destruct (Z.eqb_spec (RowsAtCompileTime arg) Dynamic) as [Hd|Hd].
  - rewrite Hd. reflexivity.
  - reflexivity.
Qed.

(** Every level of the implementor chain binds the entry points of its
    level to [Derived::reverseAD]. *)
Lemma ReverseADImplementor_slots (D : Derived Scalar JacobianMap Self)
  (n : nat) (Cols : Z) :
  slots (ReverseADImplementor D n Cols) = slots (CallRecord.CallRecord Scalar JacobianMap Self Cols).
Proof.
  induction n as [|n IH]; cbn [ReverseADImplementor].
  - now rewrite !slots_override.
  - now rewrite slots_override.
Qed.

Lemma interface_slot_declared (n : nat) (Cols : Z) (s : Slot) :
  (n <= K)%nat -> In s (slots (Interface n Cols)) ->
  In s (slots (CallRecord.CallRecord Scalar JacobianMap Self Cols)).
Proof.
  intros Hn. unfold CallRecord.CallRecord.
  rewrite slots_app, !slots_ReverseADInterface, !in_app_iff.
  intros [H|H]; [now left; left|]. left; right.
  apply in_map_iff in H as (k & <- & Hk).
  apply in_map_iff. exists k. split; [reflexivity|].
  apply in_seq. apply in_seq in Hk. lia.
Qed.

Lemma ReverseADImplementor_forwards (D : Derived Scalar JacobianMap Self)
  (n : nat) (Cols : Z) (s : Slot) :
  (n <= K)%nat -> In s (slots (Interface n Cols)) ->
  final_overrider s (ReverseADImplementor D n Cols)
  = Some (body_reverseAD (Derived_reverseAD D)).
Proof.
  induction n as [|n IH]; intros Hn Hin.
  - assert (Hd := interface_slot_declared 0 Cols s Hn Hin).
    simpl in Hin. destruct Hin as [<-|[<-|[]]]; cbn [ReverseADImplementor].
    + apply final_overrider_override_keep.
      now apply final_overrider_override_same.
    + apply final_overrider_override_same. now rewrite slots_override.
  - assert (Hd := interface_slot_declared (S n) Cols s Hn Hin).
    change (Interface (S n) Cols)
      with (Interface n Cols ++ [(_reverseAD (Z.of_nat (S n)) Cols, None)])
      in Hin.
    rewrite slots_app, in_app_iff in Hin.
    change (ReverseADImplementor D (S n) Cols)
      with (override (_reverseAD (Z.of_nat (S n)) Cols)
              (body_reverseAD (Derived_reverseAD D))
              (ReverseADImplementor D n Cols)).
    destruct Hin as [Hin|[<-|[]]].
    + apply final_overrider_override_keep. apply IH; [lia|exact Hin].
    + apply final_overrider_override_same.
      now rewrite ReverseADImplementor_slots.
Qed.

Lemma interface_slot_is_reverseAD (n : nat) (Cols : Z) (s : Slot) :
  In s (slots (Interface n Cols)) -> exists r c, s = _reverseAD r c.
Proof.
  rewrite slots_ReverseADInterface, in_app_iff. simpl.
  intros [[<-|[<-|[]]]|H]; eauto.
  apply in_map_iff in H as (k & <- & _). eauto.
Qed.

Lemma CallRecordImplementor_forwards (D : Derived Scalar JacobianMap Self)
  (Cols : Z) (s : Slot) :
  In s (slots (Interface K Cols)) ->
  final_overrider s (CallRecordImplementor D Cols)
  = Some (body_reverseAD (Derived_reverseAD D)).
Proof.
  intros Hin. destruct (interface_slot_is_reverseAD _ _ _ Hin) as (r & c & ->).
  unfold CallRecordImplementor.
  rewrite !final_overrider_override_other by discriminate.
  now apply ReverseADImplementor_forwards.
Qed.

(** What [CallRecord::reverseAD] does on a Recorder, for a block whose row
    count is one of [1..MaxVirtualStaticRows] or dynamic. *)
Lemma Recorder_reverseAD (D : Derived Scalar JacobianMap Self)
  (Cols Rows : Z) (cs : list (list Scalar)) (self : Self)
  (jac : JacobianMap) :
  Cols <> Dynamic ->
  1 <= Rows <= MaxVirtualStaticRows \/ Rows = Dynamic ->
  reverseAD Cols (mkMatrix Rows Cols cs)
    {| recorder := Recorder D Cols self; jacobians := jac |}
  = Some {| recorder := Recorder D Cols self;
            jacobians := Derived_reverseAD D self (mkMatrix Rows Cols cs) jac |}.
Proof.
  intros Hc Hr. unfold reverseAD, resolve_reverseAD. simpl ColsAtCompileTime.
  rewrite Z.eqb_refl.
  assert (Hconv : converted (mkMatrix Rows Cols cs) = mkMatrix Rows Cols cs).
  { unfold converted, ConvertToDynamicRowsIf. simpl RowsAtCompileTime.
    destruct (Z.gtb_spec Rows MaxVirtualStaticRows); [|reflexivity].
    unfold Dynamic, MaxVirtualStaticRows in *. lia. }
  rewrite Hconv.
  pose proof (viable_reverseAD_eq (mkMatrix Rows Cols cs) Hc) as Hv.
  simpl in Hv. rewrite Hv.
  assert (Hsel : exists s,
    (if Rows =? Dynamic then [_reverseAD Dynamic Cols]
     else if (1 <=? Rows) && (Rows <=? MaxVirtualStaticRows)
          then [_reverseAD Rows Cols] else []) = [s]
    /\ In s (slots (Interface K Cols))).
  { destruct (Z.eqb_spec Rows Dynamic) as [->|Hd].
    - eexists; split; [reflexivity|].
      rewrite slots_ReverseADInterface, in_app_iff. left. now left.
    - destruct Hr as [Hr|Hr]; [|contradiction].
      destruct (Z.leb_spec 1 Rows); [|lia].
      destruct (Z.leb_spec Rows MaxVirtualStaticRows); [|lia].
      eexists; split; [reflexivity|].
      rewrite slots_ReverseADInterface, in_app_iff.
      right. apply in_static_slots.
      split; [reflexivity|]. unfold MaxVirtualStaticRows in *. simpl. lia. }
  destruct Hsel as (s & -> & Hin).
  unfold call_virtual_reverseAD, Recorder.
  cbn [recorder dynamic_type this jacobians].
  now rewrite (CallRecordImplementor_forwards D Cols s Hin).
Qed.

Lemma Recorder_print (D : Derived Scalar JacobianMap Self) (Cols : Z)
  (self : Self) (jac : JacobianMap) (indent : string) :
  print indent {| recorder := Recorder D Cols self; jacobians := jac |}
  = Some ({| recorder := Recorder D Cols self; jacobians := jac |},
          Derived_print D self indent).
Proof.
  unfold print, Recorder. cbn [recorder dynamic_type this jacobians].
  unfold CallRecordImplementor.
  rewrite final_overrider_override_other by discriminate.
  rewrite final_overrider_override_same; [reflexivity|].
  rewrite ReverseADImplementor_slots. unfold CallRecord.CallRecord.
  rewrite slots_app, in_app_iff. right. simpl. auto.
Qed.

Lemma Recorder_startReverseAD (D : Derived Scalar JacobianMap Self)
  (Cols : Z) (self : Self) (jac : JacobianMap) :
  startReverseAD {| recorder := Recorder D Cols self; jacobians := jac |}
  = Some {| recorder := Recorder D Cols self;
            jacobians := Derived_startReverseAD D self jac |}.
Proof.
  unfold startReverseAD, Recorder. cbn [recorder dynamic_type this jacobians].
  unfold CallRecordImplementor.
  rewrite final_overrider_override_same; [reflexivity|].
  rewrite slots_override, ReverseADImplementor_slots.
  unfold CallRecord.CallRecord.
  rewrite slots_app, in_app_iff. right. simpl. auto.
Qed.

Lemma converted_small (x : Matrix Scalar) :
  RowsAtCompileTime x <= MaxVirtualStaticRows -> converted x = x.
Proof.
  intros H. unfold converted, ConvertToDynamicRowsIf.
  destruct (Z.gtb_spec (RowsAtCompileTime x) MaxVirtualStaticRows);
    [lia|reflexivity].
Qed.

Lemma converted_large (x : Matrix Scalar) :
  MaxVirtualStaticRows < RowsAtCompileTime x ->
  converted x = mkMatrix Dynamic (ColsAtCompileTime x) (coeffs x).
Proof.
  intros H. unfold converted, ConvertToDynamicRowsIf.
  destruct (Z.gtb_spec (RowsAtCompileTime x) MaxVirtualStaticRows);
    [reflexivity|lia].
Qed.

(** ** The claims about the dispatch layer *)

(** C1. For every row count [r] in [1..MaxVirtualStaticRows] and every
    column width [Cols], [CallRecord<Cols>::reverseAD] on a Recorder gives
    the same result for a block of [r] static rows and for a dynamic-row
    block with the same coefficients: every entry point of the interface,
    the size-specialised ones and the two dynamic ones, is bound by the
    implementor chain to the one routine [Derived::reverseAD], which is
    generic in the row count. *)
Theorem static_dynamic_equivalence (D : Derived Scalar JacobianMap Self)
  (Cols r : Z) (cs : list (list Scalar)) (self : Self) (jac : JacobianMap) :
  Cols <> Dynamic ->
  1 <= r <= MaxVirtualStaticRows ->
  row_count_generic D ->
  let w := {| recorder := Recorder D Cols self; jacobians := jac |} in
  (forall s, In s (slots (Interface K Cols)) ->
     final_overrider s (CallRecordImplementor D Cols)
     = Some (body_reverseAD (Derived_reverseAD D)))
  /\ reverseAD Cols (mkMatrix r Cols cs) w
     = Some {| recorder := Recorder D Cols self;
               jacobians :=
                 Derived_reverseAD D self (mkMatrix r Cols cs) jac |}
  /\ reverseAD Cols (mkMatrix Dynamic Cols cs) w
     = Some {| recorder := Recorder D Cols self;
               jacobians :=
                 Derived_reverseAD D self (mkMatrix Dynamic Cols cs) jac |}
  /\ reverseAD Cols (mkMatrix r Cols cs) w
     = reverseAD Cols (mkMatrix Dynamic Cols cs) w.
Proof.
  intros Hc Hr Hgen w. unfold w.
  split; [apply CallRecordImplementor_forwards|].
  rewrite !Recorder_reverseAD by auto.
  repeat split. do 2 f_equal. now apply Hgen.
Qed.

(** C2. [CallRecord<Cols>::reverseAD] selects exactly one virtual entry
    point for a block of [Rows] rows: the one specialised for [Rows] when
    [1 <= Rows <= MaxVirtualStaticRows], the dynamic-row one when
    [Rows > MaxVirtualStaticRows] or [Rows] is dynamic; and for
    [Rows > MaxVirtualStaticRows] the block that reaches the dynamic entry
    point has the coefficients of the input. *)
Theorem reverseAD_dispatch (Cols Rows : Z) (cs : list (list Scalar))
  (w : World Scalar JacobianMap Self) :
  Cols <> Dynamic ->
  let dFdT := mkMatrix Rows Cols cs in
  (1 <= Rows <= MaxVirtualStaticRows ->
     viable_reverseAD JacobianMap Self Cols (converted dFdT)
     = [_reverseAD Rows Cols]
     /\ reverseAD Cols dFdT w
        = call_virtual_reverseAD (_reverseAD Rows Cols) dFdT w)
  /\ (MaxVirtualStaticRows < Rows \/ Rows = Dynamic ->
     viable_reverseAD JacobianMap Self Cols (converted dFdT)
     = [_reverseAD Dynamic Cols]
     /\ reverseAD Cols dFdT w
        = call_virtual_reverseAD (_reverseAD Dynamic Cols)
            (mkMatrix Dynamic Cols cs) w)
  /\ (MaxVirtualStaticRows < Rows ->
     coeffs (converted dFdT) = cs
     /\ rows (converted dFdT) = rows dFdT).
Proof.
  intros Hc dFdT. unfold reverseAD, resolve_reverseAD.
  subst dFdT. set (dFdT := mkMatrix Rows Cols cs).
  change (ColsAtCompileTime dFdT) with Cols. rewrite Z.eqb_refl.
  assert (HR : RowsAtCompileTime dFdT = Rows) by reflexivity.
  split; [|split].
  - intros Hr. rewrite converted_small by (rewrite HR; apply Hr).
    pose proof (viable_reverseAD_eq dFdT Hc) as Hv. simpl in Hv.
    destruct (Z.eqb_spec Rows Dynamic); [unfold Dynamic in *; lia|].
    destruct (Z.leb_spec 1 Rows); [|lia].
    destruct (Z.leb_spec Rows MaxVirtualStaticRows); [|lia].
    simpl in Hv. rewrite Hv. split; reflexivity.
  - intros Hr.
    assert (Hconv : converted dFdT = mkMatrix Dynamic Cols cs).
    { destruct Hr as [Hr|Hr].
      - rewrite converted_large by (rewrite HR; exact Hr). reflexivity.
      - rewrite converted_small; [unfold dFdT; now rewrite Hr|].
        rewrite HR, Hr. unfold Dynamic, MaxVirtualStaticRows. lia. }
    rewrite Hconv.
    pose proof (viable_reverseAD_eq (mkMatrix Dynamic Cols cs) Hc) as Hv.
    simpl in Hv. rewrite Hv. split; reflexivity.
  - intros Hr. rewrite converted_large by (rewrite HR; exact Hr).
    split; reflexivity.
Qed.

(** C3. [ConvertToDynamicRowsIf], chosen by [Rows > MaxVirtualStaticRows]
    alone, hands back the very block it was given when the row count is at
    most [MaxVirtualStaticRows] or dynamic, and otherwise a dynamic-rows
    matrix with the same coefficients and the same compile-time column
    count. *)
Theorem ConvertToDynamicRowsIf_selected (x : Matrix Scalar) :
  (RowsAtCompileTime x <= MaxVirtualStaticRows
   \/ RowsAtCompileTime x = Dynamic ->
     ConvertToDynamicRowsIf
       (RowsAtCompileTime x >? MaxVirtualStaticRows) x = x)
  /\ (MaxVirtualStaticRows < RowsAtCompileTime x ->
     let y := ConvertToDynamicRowsIf
                (RowsAtCompileTime x >? MaxVirtualStaticRows) x in
     RowsAtCompileTime y = Dynamic
     /\ ColsAtCompileTime y = ColsAtCompileTime x
     /\ coeffs y = coeffs x).
Proof.
  split.
  - intros H. apply converted_small.
    destruct H as [H| ->]; [exact H|].
    unfold Dynamic, MaxVirtualStaticRows. lia.
  - intros H y. unfold y.
    change (ConvertToDynamicRowsIf _ x) with (converted x).
    rewrite converted_large by exact H. repeat split.
Qed.

(** C4. [ReverseADInterface<n, Cols>] is built level by level: level [0]
    declares the dynamic-row and the fully dynamic entry point, level
    [n + 1] adds to level [n] the entry point for [n + 1] rows; so level
    [MaxVirtualStaticRows] declares one entry point per row count
    [1..MaxVirtualStaticRows] and the two dynamic ones,
    [MaxVirtualStaticRows + 2] in all, every one of them pure virtual.
    [CallRecord<Cols>] is therefore abstract, and a class derived from it
    that can be instantiated has a final overrider for every entry
    point. *)
Theorem ReverseADInterface_entry_points (n : nat) (Cols : Z) :
  Interface 0 Cols
  = [(_reverseAD Dynamic Cols, None); (_reverseAD Dynamic Dynamic, None)]
  /\ Interface (S n) Cols
     = Interface n Cols ++ [(_reverseAD (Z.of_nat (S n)) Cols, None)]
  /\ slots (Interface n Cols)
     = [_reverseAD Dynamic Cols; _reverseAD Dynamic Dynamic]
       ++ static_slots Cols n
  /\ List.length (Interface n Cols) = (n + 2)%nat
  /\ List.length (Interface K Cols) = Z.to_nat (MaxVirtualStaticRows + 2)
  /\ (forall e, In e (Interface n Cols) -> snd e = None)
  /\ (Cols <> Dynamic -> NoDup (slots (Interface n Cols)))
  /\ is_abstract (CallRecord.CallRecord Scalar JacobianMap Self Cols) = true
  /\ (forall (ds : list (Slot * Body Scalar JacobianMap Self)) (s : Slot),
        is_abstract (derive ds (CallRecord.CallRecord _ _ _ Cols)) = false ->
        In s (slots (Interface K Cols)) ->
        exists b,
          final_overrider s (derive ds (CallRecord.CallRecord _ _ _ Cols))
          = Some b).
Proof.
  split; [reflexivity|]. split; [reflexivity|].
  split; [apply slots_ReverseADInterface|].
  split; [apply length_ReverseADInterface|]. split; [reflexivity|].
  split; [apply ReverseADInterface_pure|]. split; [|split].
  - intros Hc. rewrite slots_ReverseADInterface.
    assert (Hdd : ~ In (_reverseAD Dynamic Dynamic) (static_slots Cols n)).
    { rewrite in_static_slots. unfold Dynamic. lia. }
    assert (Hdc : ~ In (_reverseAD Dynamic Cols) (static_slots Cols n)).
    { rewrite in_static_slots. unfold Dynamic. lia. }
    simpl. constructor; [|constructor; [exact Hdd|apply NoDup_static_slots]].
    simpl. intros [Heq|Hin]; [|contradiction].
    inversion Heq. congruence.
  - reflexivity.
  - intros ds s Hconc Hin. apply concrete_class_complete; [exact Hconc|].
    rewrite slots_derive.
    apply (interface_slot_declared K Cols s); [lia|exact Hin].
Qed.

(** C5, as the code has it.  The overloads of [_reverseAD] in
    [CallRecord<Cols>] are: one of column width [Cols] for every row count
    in [1..MaxVirtualStaticRows], one of column width [Cols] with dynamic
    rows, and the fully dynamic one, whose parameter [gtsam::Matrix] has
    a dynamic column count as well as a dynamic row count. *)
Theorem entry_point_shapes (Cols r c : Z) :
  In (_reverseAD r c) (slots (Interface K Cols)) <->
  (c = Cols /\ (1 <= r <= MaxVirtualStaticRows \/ r = Dynamic))
  \/ (r = Dynamic /\ c = Dynamic).
Proof.
  rewrite slots_ReverseADInterface, in_app_iff, in_static_slots.
  change (Z.of_nat K) with MaxVirtualStaticRows. simpl. split.
  - intros [[H|[H|[]]]|[Hc Hr]].
    + inversion H; subst. left. auto.
    + inversion H; subst. right. auto.
    + left. auto.
  - intros [[-> [Hr| ->]]|[-> ->]]; auto.
Qed.

End DispatchProperties.

(* ====================================================================== *)
(** * Part V: properties of NonlinearConstraint.h *)
(* ====================================================================== *)

Import NonlinearConstraint.

Section ConstraintProperties.

Context {E : Env}.

(** ** Running computations *)

Lemma bind_yields {A B} (m : M A) (a : A) (k : A -> M B) (tr : list Event) :
  yields m a -> bind m k tr = k a tr.
Proof. intros H. unfold bind. now rewrite H. Qed.

Lemma yields_ret {A} (a : A) : yields (ret a) a.
Proof. intros tr. reflexivity. Qed.

Lemma yields_bind {A B} (m : M A) (a : A) (k : A -> M B) (b : B) :
  yields m a -> yields (k a) b -> yields (bind m k) b.
Proof. intros Hm Hk tr. rewrite (bind_yields _ _ _ _ Hm). apply Hk. Qed.

Lemma subscript_yields {A} (v : list A) (i : nat) :
  (i < List.length v)%nat -> exists a, yields (subscript v i) a.
Proof.
  intros Hi. unfold subscript.
  destruct (nth_error v i) as [a|] eqn:Hn.
  - exists a. apply yields_ret.
  - apply nth_error_None in Hn. lia.
Qed.

Lemma subscript_outside {A} (v : list A) (i : nat) (tr : list Event) :
  (List.length v <= i)%nat -> subscript v i tr = (Undefined, tr).
Proof.
  intros Hi. unfold subscript.
  apply nth_error_None in Hi. now rewrite Hi.
Qed.

Lemma for_from_yields {S} (body : nat -> S -> M S) (count : nat) :
  forall (i : nat) (s : S),
    (forall j s0, (i <= j < i + count)%nat -> exists s', yields (body j s0) s') ->
    exists s', yields (for_from i count body s) s'.
Proof.
  induction count as [|count IH]; intros i s Hbody; simpl.
  - exists s. apply yields_ret.
  - destruct (Hbody i s) as (s1 & Hy1); [lia|].
    destruct (IH (Datatypes.S i) s1) as (s2 & Hy2).
    { intros j s0 Hj. apply Hbody. lia. }
    exists s2. eapply yields_bind; eauto.
Qed.

Lemma bind_at_Values {B} (x : Values) (j : Key) (v : Value)
  (k : Value -> M B) (tr : list Event) :
  Values_at x j = Some v ->
  bind (at_Values x j) k tr = k v (tr ++ [ValuesAt j]).
Proof. intros H. unfold at_Values, bind, emit. now rewrite H. Qed.

Lemma bind_at_VectorValues {B} (duals : VectorValues) (j : Key) (v : Vector)
  (k : Vector -> M B) (tr : list Event) :
  VectorValues_at duals j = Some v ->
  bind (at_VectorValues duals j) k tr = k v (tr ++ [DualsAt j]).
Proof. intros H. unfold at_VectorValues, bind, emit. now rewrite H. Qed.

Lemma bind_emit_ret {A B} (ev : Event) (a : A) (k : A -> M B)
  (tr : list Event) :
  bind (bind (emit ev) (fun _ => ret a)) k tr = k a (tr ++ [ev]).
Proof. reflexivity. Qed.

Lemma eqb_mismatch (n m : nat) : n <> m -> negb (n =? m)%nat = true.
Proof. intros H. apply Nat.eqb_neq in H. now rewrite H. Qed.

Lemma eqb_match (n m : nat) : n = m -> negb (n =? m)%nat = false.
Proof. intros ->. now rewrite Nat.eqb_refl. Qed.

Lemma app_three {A} (l : list A) (a b c : A) :
  ((l ++ [a]) ++ [b]) ++ [c] = l ++ [a; b; c].
Proof. now rewrite <- !app_assoc. Qed.

Lemma app_four {A} (l : list A) (a b c d : A) :
  (((l ++ [a]) ++ [b]) ++ [c]) ++ [d] = l ++ [a; b; c; d].
Proof. now rewrite <- !app_assoc. Qed.

Lemma app_five {A} (l : list A) (a b c d e : A) :
  ((((l ++ [a]) ++ [b]) ++ [c]) ++ [d]) ++ [e] = l ++ [a; b; c; d; e].
Proof. now rewrite <- !app_assoc. Qed.

(** ** Shapes *)

Lemma has_shape_iff (r c : nat) (A : Matrix) :
  has_shape r c A = true <-> Matrix_rows A = r /\ Matrix_cols A = c.
Proof. unfold has_shape. now rewrite andb_true_iff, !Nat.eqb_eq. Qed.

Lemma same_shape_iff (A B : Matrix) :
  same_shape A B = true
  <-> Matrix_rows A = Matrix_rows B /\ Matrix_cols A = Matrix_cols B.
Proof. unfold same_shape. now rewrite andb_true_iff, !Nat.eqb_eq. Qed.

Lemma has_shape_same (r c : nat) (A B : Matrix) :
  has_shape r c A = true -> same_shape B A = true -> has_shape r c B = true.
Proof.
  rewrite !has_shape_iff, same_shape_iff. intros [? ?] [? ?]. split; congruence.
Qed.

Lemma same_shape_of (r c : nat) (A B : Matrix) :
  has_shape r c A = true -> has_shape r c B = true -> same_shape A B = true.
Proof.
  rewrite !has_shape_iff, same_shape_iff. intros [? ?] [? ?]. split; congruence.
Qed.

Lemma all_shaped_nth (r c : nat) (G : list Matrix) (i : nat) (A : Matrix) :
  all_shaped r c G = true -> nth_error G i = Some A -> has_shape r c A = true.
Proof.
  unfold all_shaped. rewrite forallb_forall. intros H Hn.
  apply H. eapply nth_error_In; eauto.
Qed.

Lemma all_shaped_skipn (r c : nat) (G : list Matrix) (i : nat) :
  all_shaped r c G = true -> all_shaped r c (skipn i G) = true.
Proof.
  unfold all_shaped. rewrite !forallb_forall. intros H A HA.
  apply H. rewrite <- (firstn_skipn i G). apply in_or_app. now right.
Qed.

Section Shapes.

Hypothesis Eigen : EigenShapes.

Lemma zeros_like_shape (r c : nat) (A : Matrix) :
  has_shape r c A = true ->
  has_shape r c (zeros (Matrix_rows A) (Matrix_cols A)) = true.
Proof. intros H. eapply has_shape_same; [exact H|apply (zeros_shape Eigen)]. Qed.

Lemma scaled_shape (r c : nat) (s : Scalar) (A : Matrix) :
  has_shape r c A = true -> has_shape r c (Matrix_scale s A) = true.
Proof. intros H. eapply has_shape_same; [exact H|apply (scale_shape Eigen)]. Qed.

Lemma sum_shape (r c : nat) (A B : Matrix) :
  has_shape r c A = true -> has_shape r c B = true ->
  has_shape r c (Matrix_add A B) = true.
Proof.
  intros HA HB. eapply has_shape_same; [exact HA|].
  apply (add_shape Eigen). eapply same_shape_of; eauto.
Qed.

(** ** The loops as sums *)

Lemma add_scaled_step (r c : nat) (lambda : Vector) (G : list Matrix)
  (i : nat) (s : Matrix) (l : Scalar) (Gi : Matrix) :
  all_shaped r c G = true -> has_shape r c s = true ->
  nth_error lambda i = Some l -> nth_error G i = Some Gi ->
  yields (add_scaled lambda G i s)
    (Matrix_add s (Matrix_scale (Scalar_opp l) Gi))
  /\ has_shape r c (Matrix_add s (Matrix_scale (Scalar_opp l) Gi)) = true.
Proof.
  intros HG Hs Hl HGi.
  assert (Hsc : has_shape r c (Matrix_scale (Scalar_opp l) Gi) = true)
    by (apply scaled_shape; eapply all_shaped_nth; eauto).
  split; [|now apply sum_shape].
  intros tr. unfold add_scaled, bind, subscript, ret, add_assign.
  now rewrite Hl, HGi, (same_shape_of r c _ _ Hs Hsc).
Qed.

Lemma weighted_sum_shape (r c : nat) (lambda : Vector) :
  forall (G : list Matrix) (z : Matrix),
    all_shaped r c G = true -> has_shape r c z = true ->
    has_shape r c (weighted_sum lambda G z) = true.
Proof.
  induction lambda as [|l lambda IH]; intros [|Gi G] z HG Hz;
    try exact Hz.
  change (weighted_sum (l :: lambda) (Gi :: G) z)
    with (weighted_sum lambda G
            (Matrix_add z (Matrix_scale (Scalar_opp l) Gi))).
  simpl in HG. apply andb_true_iff in HG as [HGi HG].
  apply IH; [exact HG|]. apply sum_shape; [exact Hz|now apply scaled_shape].
Qed.

End Shapes.

Lemma skipn_nth_error {A} (l : list A) (i : nat) (a : A) :
  nth_error l i = Some a -> skipn i l = a :: skipn (Datatypes.S i) l.
Proof.
  revert l. induction i as [|i IH]; intros [|b l] H; simpl in H;
    try discriminate.
  - now inversion H.
  - simpl. now apply IH.
Qed.

Lemma nth_error_inside {A} (l : list A) (i : nat) :
  (i < List.length l)%nat -> exists a, nth_error l i = Some a.
Proof.
  intros Hi. destruct (nth_error l i) as [a|] eqn:Hn; [eauto|].
  apply nth_error_None in Hn. lia.
Qed.

Lemma weighted_sum_skipn (lambda : Vector) (G : list Matrix) (i : nat)
  (z : Matrix) (l : Scalar) (Gi : Matrix) :
  nth_error lambda i = Some l -> nth_error G i = Some Gi ->
  weighted_sum (skipn i lambda) (skipn i G) z
  = weighted_sum (skipn (Datatypes.S i) lambda) (skipn (Datatypes.S i) G)
      (Matrix_add z (Matrix_scale (Scalar_opp l) Gi)).
Proof.
  intros Hl HG.
  now rewrite (skipn_nth_error lambda i l Hl), (skipn_nth_error G i Gi HG).
Qed.

Lemma weighted_sum_end (lambda : Vector) (G : list Matrix) (z : Matrix) :
  weighted_sum (skipn (dim lambda) lambda) G z = z.
Proof. unfold dim. now rewrite skipn_all. Qed.

Lemma zeros_like_first_value (G : list Matrix) (G0 : Matrix) :
  nth_error G 0 = Some G0 ->
  yields (zeros_like_first G) (zeros (Matrix_rows G0) (Matrix_cols G0)).
Proof.
  intros H tr. unfold zeros_like_first, bind, subscript, ret. now rewrite H.
Qed.

Lemma dim_zero (n : nat) : dim (zero n) = n.
Proof. apply repeat_length. Qed.

Lemma square_with_zero (d : nat) (G : Matrix) :
  has_shape d d G = true -> square_with G (zero d) = true.
Proof.
  rewrite has_shape_iff. intros [Hr Hc]. unfold square_with.
  now rewrite dim_zero, Hr, Hc, Nat.eqb_refl.
Qed.

Lemma between_shapes (da db : nat) (Gab Gaa Gbb : Matrix) :
  has_shape da db Gab = true -> has_shape da da Gaa = true ->
  has_shape db db Gbb = true -> between Gab Gaa Gbb = true.
Proof.
  rewrite !has_shape_iff. intros [? ?] [? ?] [? ?]. unfold between.
  apply andb_true_iff. rewrite !Nat.eqb_eq. split; congruence.
Qed.

Lemma for_from_add_scaled (Eigen : EigenShapes) (r c : nat)
  (lambda : Vector) (G : list Matrix) (count : nat) :
  all_shaped r c G = true -> dim lambda = List.length G ->
  forall (i : nat) (s : Matrix),
    has_shape r c s = true -> (i + count = dim lambda)%nat ->
    yields (for_from i count (add_scaled lambda G) s)
      (weighted_sum (skipn i lambda) (skipn i G) s).
Proof.
  intros HG Hlen. induction count as [|count IH]; intros i s Hs Hi; simpl.
  - rewrite Nat.add_0_r in Hi. subst i. rewrite weighted_sum_end.
    apply yields_ret.
  - destruct (nth_error_inside lambda i) as (l & Hl); [unfold dim in *; lia|].
    destruct (nth_error_inside G i) as (Gi & HGi); [lia|].
    rewrite (weighted_sum_skipn lambda G i s l Gi Hl HGi).
    destruct (add_scaled_step Eigen r c lambda G i s l Gi HG Hs Hl HGi)
      as (Hy & Hs').
    eapply yields_bind; [exact Hy|]. apply IH; [exact Hs'|lia].
Qed.

(** ** multipliedHessian of an active constraint *)

Lemma multipliedHessian1_throws (c : NonlinearEqualityConstraint1.t)
  (x : Values) (duals : VectorValues) (tr : list Event)
  (x1 : Value) (lambda : Vector) :
  NonlinearEqualityConstraint1.active c x = true ->
  Values_at x (NonlinearEqualityConstraint1.key c) = Some x1 ->
  VectorValues_at duals (dualKey (NonlinearEqualityConstraint1.base c))
  = Some lambda ->
  dim lambda
  <> List.length (NonlinearEqualityConstraint1.evaluateHessians c x1) ->
  fst (NonlinearEqualityConstraint1.multipliedHessian c x duals tr)
  = Threw (runtime_error dimension_error).
Proof.
  intros Hact Hx Hl Hne.
  unfold NonlinearEqualityConstraint1.multipliedHessian.
  rewrite Hact. cbn [negb].
  rewrite (bind_at_Values _ _ _ _ _ Hx), (bind_at_VectorValues _ _ _ _ _ Hl).
  unfold NonlinearEqualityConstraint1.call_evaluateHessians.
  now rewrite bind_emit_ret, (eqb_mismatch _ _ Hne).
Qed.

Lemma multipliedHessian1_returns (Eigen : EigenShapes)
  (c : NonlinearEqualityConstraint1.t)
  (x : Values) (duals : VectorValues) (tr : list Event)
  (x1 : Value) (lambda : Vector) (G0 : Matrix) :
  NonlinearEqualityConstraint1.active c x = true ->
  Values_at x (NonlinearEqualityConstraint1.key c) = Some x1 ->
  VectorValues_at duals (dualKey (NonlinearEqualityConstraint1.base c))
  = Some lambda ->
  dim lambda
  = List.length (NonlinearEqualityConstraint1.evaluateHessians c x1) ->
  nth_error (NonlinearEqualityConstraint1.evaluateHessians c x1) 0
  = Some G0 ->
  all_shaped (NonlinearEqualityConstraint1.X1Dim c)
    (NonlinearEqualityConstraint1.X1Dim c)
    (NonlinearEqualityConstraint1.evaluateHessians c x1) = true ->
  NonlinearEqualityConstraint1.multipliedHessian c x duals tr
  = (Returned
       (Some
          (HessianFactor_1 (NonlinearEqualityConstraint1.key c)
             (weighted_sum lambda
                (NonlinearEqualityConstraint1.evaluateHessians c x1)
                (zeros (Matrix_rows G0) (Matrix_cols G0)))
             (zero (NonlinearEqualityConstraint1.X1Dim c))
             (double_of_Z 100))),
     tr ++ [ValuesAt (NonlinearEqualityConstraint1.key c);
            DualsAt (dualKey (NonlinearEqualityConstraint1.base c));
            EvaluateHessians]).
Proof.
  intros Hact Hx Hl Hdim HG0 Hsh.
  assert (Hz := zeros_like_shape Eigen _ _ G0 (all_shaped_nth _ _ _ _ _ Hsh HG0)).
  unfold NonlinearEqualityConstraint1.multipliedHessian.
  rewrite Hact. cbn [negb].
  rewrite (bind_at_Values _ _ _ _ _ Hx), (bind_at_VectorValues _ _ _ _ _ Hl).
  unfold NonlinearEqualityConstraint1.call_evaluateHessians.
  rewrite bind_emit_ret, (eqb_match _ _ Hdim), app_three.
  rewrite (bind_yields _ _ _ _ (zeros_like_first_value _ _ HG0)).
  unfold for_loop.
  rewrite (bind_yields _ _ _ _
             (for_from_add_scaled Eigen _ _ lambda _ (dim lambda) Hsh Hdim
                0 _ Hz eq_refl)).
  unfold new_HessianFactor_1, bind. cbn [skipn].
  now rewrite (square_with_zero _ _ (weighted_sum_shape Eigen _ _ _ _ _ Hsh Hz)).
Qed.

Lemma for_from_loop_body2 (Eigen : EigenShapes) (d1 d2 : nat)
  (lambda : Vector) (G : NonlinearEqualityConstraint2.Hessians)
  (count : nat) :
  all_shaped d1 d1 (NonlinearEqualityConstraint2.G11 G) = true ->
  all_shaped d1 d2 (NonlinearEqualityConstraint2.G12 G) = true ->
  all_shaped d2 d2 (NonlinearEqualityConstraint2.G22 G) = true ->
  dim lambda = List.length (NonlinearEqualityConstraint2.G11 G) ->
  dim lambda = List.length (NonlinearEqualityConstraint2.G12 G) ->
  dim lambda = List.length (NonlinearEqualityConstraint2.G22 G) ->
  forall (i : nat) (s : NonlinearEqualityConstraint2.Sums),
    has_shape d1 d1 (NonlinearEqualityConstraint2.lG11sum s) = true ->
    has_shape d1 d2 (NonlinearEqualityConstraint2.lG12sum s) = true ->
    has_shape d2 d2 (NonlinearEqualityConstraint2.lG22sum s) = true ->
    (i + count = dim lambda)%nat ->
    yields
      (for_from i count (NonlinearEqualityConstraint2.loop_body lambda G) s)
      (NonlinearEqualityConstraint2.mkSums
         (weighted_sum (skipn i lambda)
            (skipn i (NonlinearEqualityConstraint2.G11 G))
            (NonlinearEqualityConstraint2.lG11sum s))
         (weighted_sum (skipn i lambda)
            (skipn i (NonlinearEqualityConstraint2.G12 G))
            (NonlinearEqualityConstraint2.lG12sum s))
         (weighted_sum (skipn i lambda)
            (skipn i (NonlinearEqualityConstraint2.G22 G))
            (NonlinearEqualityConstraint2.lG22sum s))).
Proof.
  intros S11 S12 S22 H11 H12 H22.
  induction count as [|count IH]; intros i s Z11 Z12 Z22 Hi; simpl.
  - rewrite Nat.add_0_r in Hi. subst i. rewrite !weighted_sum_end.
    destruct s. apply yields_ret.
  - destruct (nth_error_inside lambda i) as (l & Hl); [unfold dim in *; lia|].
    destruct (nth_error_inside (NonlinearEqualityConstraint2.G11 G) i)
      as (g11 & Hg11); [lia|].
    destruct (nth_error_inside (NonlinearEqualityConstraint2.G12 G) i)
      as (g12 & Hg12); [lia|].
    destruct (nth_error_inside (NonlinearEqualityConstraint2.G22 G) i)
      as (g22 & Hg22); [lia|].
    rewrite (weighted_sum_skipn lambda _ i _ l g11 Hl Hg11),
      (weighted_sum_skipn lambda _ i _ l g12 Hl Hg12),
      (weighted_sum_skipn lambda _ i _ l g22 Hl Hg22).
    destruct (add_scaled_step Eigen _ _ lambda _ i _ l g11 S11 Z11 Hl Hg11)
      as (Y11 & Z11').
    destruct (add_scaled_step Eigen _ _ lambda _ i _ l g12 S12 Z12 Hl Hg12)
      as (Y12 & Z12').
    destruct (add_scaled_step Eigen _ _ lambda _ i _ l g22 S22 Z22 Hl Hg22)
      as (Y22 & Z22').
    eapply yields_bind.
    { unfold NonlinearEqualityConstraint2.loop_body.
      eapply yields_bind; [exact Y11|].
      eapply yields_bind; [exact Y12|].
      eapply yields_bind; [exact Y22|]. apply yields_ret. }
    apply (IH (Datatypes.S i)); [exact Z11'|exact Z12'|exact Z22'|lia].
Qed.

Lemma multipliedHessian2_throws (c : NonlinearEqualityConstraint2.t)
  (x : Values) (duals : VectorValues) (tr : list Event)
  (x1 x2 : Value) (lambda : Vector) :
  NonlinearEqualityConstraint2.active c x = true ->
  Values_at x (NonlinearEqualityConstraint2.key1 c) = Some x1 ->
  Values_at x (NonlinearEqualityConstraint2.key2 c) = Some x2 ->
  VectorValues_at duals (dualKey (NonlinearEqualityConstraint2.base c))
  = Some lambda ->
  let G := NonlinearEqualityConstraint2.evaluateHessians c x1 x2 in
  dim lambda <> List.length (NonlinearEqualityConstraint2.G11 G)
  \/ dim lambda <> List.length (NonlinearEqualityConstraint2.G12 G)
  \/ dim lambda <> List.length (NonlinearEqualityConstraint2.G22 G) ->
  fst (NonlinearEqualityConstraint2.multipliedHessian c x duals tr)
  = Threw (runtime_error dimension_error).
Proof.
  intros Hact Hx1 Hx2 Hl G Hne.
  unfold NonlinearEqualityConstraint2.multipliedHessian.
  rewrite Hact. cbn [negb].
  rewrite (bind_at_Values _ _ _ _ _ Hx1), (bind_at_Values _ _ _ _ _ Hx2),
    (bind_at_VectorValues _ _ _ _ _ Hl).
  unfold NonlinearEqualityConstraint2.call_evaluateHessians.
  rewrite bind_emit_ret. fold G.
  assert (Hcond :
    negb (dim lambda =? List.length (NonlinearEqualityConstraint2.G11 G))%nat
    || negb (dim lambda =? List.length (NonlinearEqualityConstraint2.G12 G))%nat
    || negb (dim lambda =? List.length (NonlinearEqualityConstraint2.G22 G))%nat
    = true).
  { destruct Hne as [H|[H|H]]; rewrite (eqb_mismatch _ _ H);
      rewrite ?orb_true_r; reflexivity. }
  now rewrite Hcond.
Qed.

Lemma multipliedHessian2_returns (Eigen : EigenShapes)
  (c : NonlinearEqualityConstraint2.t)
  (x : Values) (duals : VectorValues) (tr : list Event)
  (x1 x2 : Value) (lambda : Vector) (A11 A12 A22 : Matrix) :
  NonlinearEqualityConstraint2.active c x = true ->
  Values_at x (NonlinearEqualityConstraint2.key1 c) = Some x1 ->
  Values_at x (NonlinearEqualityConstraint2.key2 c) = Some x2 ->
  VectorValues_at duals (dualKey (NonlinearEqualityConstraint2.base c))
  = Some lambda ->
  let G := NonlinearEqualityConstraint2.evaluateHessians c x1 x2 in
  dim lambda = List.length (NonlinearEqualityConstraint2.G11 G) ->
  dim lambda = List.length (NonlinearEqualityConstraint2.G12 G) ->
  dim lambda = List.length (NonlinearEqualityConstraint2.G22 G) ->
  nth_error (NonlinearEqualityConstraint2.G11 G) 0 = Some A11 ->
  nth_error (NonlinearEqualityConstraint2.G12 G) 0 = Some A12 ->
  nth_error (NonlinearEqualityConstraint2.G22 G) 0 = Some A22 ->
  all_shaped (NonlinearEqualityConstraint2.X1Dim c)
    (NonlinearEqualityConstraint2.X1Dim c)
    (NonlinearEqualityConstraint2.G11 G) = true ->
  all_shaped (NonlinearEqualityConstraint2.X1Dim c)
    (NonlinearEqualityConstraint2.X2Dim c)
    (NonlinearEqualityConstraint2.G12 G) = true ->
  all_shaped (NonlinearEqualityConstraint2.X2Dim c)
    (NonlinearEqualityConstraint2.X2Dim c)
    (NonlinearEqualityConstraint2.G22 G) = true ->
  NonlinearEqualityConstraint2.multipliedHessian c x duals tr
  = (Returned
       (Some
          (HessianFactor_2
             (NonlinearEqualityConstraint2.key1 c)
             (NonlinearEqualityConstraint2.key2 c)
             (weighted_sum lambda (NonlinearEqualityConstraint2.G11 G)
                (zeros (Matrix_rows A11) (Matrix_cols A11)))
             (weighted_sum lambda (NonlinearEqualityConstraint2.G12 G)
                (zeros (Matrix_rows A12) (Matrix_cols A12)))
             (zero (NonlinearEqualityConstraint2.X1Dim c))
             (weighted_sum lambda (NonlinearEqualityConstraint2.G22 G)
                (zeros (Matrix_rows A22) (Matrix_cols A22)))
             (zero (NonlinearEqualityConstraint2.X2Dim c))
             (double_of_Z 0))),
     tr ++ [ValuesAt (NonlinearEqualityConstraint2.key1 c);
            ValuesAt (NonlinearEqualityConstraint2.key2 c);
            DualsAt (dualKey (NonlinearEqualityConstraint2.base c));
            EvaluateHessians]).
Proof.
  intros Hact Hx1 Hx2 Hl G H11 H12 H22 HA11 HA12 HA22 S11 S12 S22.
  assert (Z11 := zeros_like_shape Eigen _ _ A11 (all_shaped_nth _ _ _ _ _ S11 HA11)).
  assert (Z12 := zeros_like_shape Eigen _ _ A12 (all_shaped_nth _ _ _ _ _ S12 HA12)).
  assert (Z22 := zeros_like_shape Eigen _ _ A22 (all_shaped_nth _ _ _ _ _ S22 HA22)).
  unfold NonlinearEqualityConstraint2.multipliedHessian.
  rewrite Hact. cbn [negb].
  rewrite (bind_at_Values _ _ _ _ _ Hx1), (bind_at_Values _ _ _ _ _ Hx2),
    (bind_at_VectorValues _ _ _ _ _ Hl).
  unfold NonlinearEqualityConstraint2.call_evaluateHessians.
  rewrite bind_emit_ret. fold G.
  rewrite (eqb_match _ _ H11), (eqb_match _ _ H12), (eqb_match _ _ H22),
    app_four.
  cbn [orb].
  rewrite (bind_yields _ _ _ _ (zeros_like_first_value _ _ HA11)),
    (bind_yields _ _ _ _ (zeros_like_first_value _ _ HA12)),
    (bind_yields _ _ _ _ (zeros_like_first_value _ _ HA22)).
  unfold for_loop.
  rewrite (bind_yields _ _ _ _
             (for_from_loop_body2 Eigen _ _ lambda G (dim lambda)
                S11 S12 S22 H11 H12 H22 0
                (NonlinearEqualityConstraint2.mkSums
                   (zeros (Matrix_rows A11) (Matrix_cols A11))
                   (zeros (Matrix_rows A12) (Matrix_cols A12))
                   (zeros (Matrix_rows A22) (Matrix_cols A22)))
                Z11 Z12 Z22 eq_refl)).
  unfold new_HessianFactor_2, bind.
  cbn [skipn NonlinearEqualityConstraint2.lG11sum
       NonlinearEqualityConstraint2.lG12sum
       NonlinearEqualityConstraint2.lG22sum].
  assert (W11 := weighted_sum_shape Eigen _ _ lambda _ _ S11 Z11).
  assert (W12 := weighted_sum_shape Eigen _ _ lambda _ _ S12 Z12).
  assert (W22 := weighted_sum_shape Eigen _ _ lambda _ _ S22 Z22).
  now rewrite (square_with_zero _ _ W11), (square_with_zero _ _ W22),
    (between_shapes _ _ _ _ _ W12 W11 W22).
Qed.

Lemma for_from_loop_body3 (Eigen : EigenShapes) (d1 d2 d3 : nat)
  (lambda : Vector) (G : NonlinearEqualityConstraint3.Hessians)
  (count : nat) :
  all_shaped d1 d1 (NonlinearEqualityConstraint3.G11 G) = true ->
  all_shaped d1 d2 (NonlinearEqualityConstraint3.G12 G) = true ->
  all_shaped d1 d3 (NonlinearEqualityConstraint3.G13 G) = true ->
  all_shaped d2 d2 (NonlinearEqualityConstraint3.G22 G) = true ->
  all_shaped d2 d3 (NonlinearEqualityConstraint3.G23 G) = true ->
  all_shaped d3 d3 (NonlinearEqualityConstraint3.G33 G) = true ->
  dim lambda = List.length (NonlinearEqualityConstraint3.G11 G) ->
  dim lambda = List.length (NonlinearEqualityConstraint3.G12 G) ->
  dim lambda = List.length (NonlinearEqualityConstraint3.G13 G) ->
  dim lambda = List.length (NonlinearEqualityConstraint3.G22 G) ->
  dim lambda = List.length (NonlinearEqualityConstraint3.G23 G) ->
  dim lambda = List.length (NonlinearEqualityConstraint3.G33 G) ->
  forall (i : nat) (s : NonlinearEqualityConstraint3.Sums),
    has_shape d1 d1 (NonlinearEqualityConstraint3.lG11sum s) = true ->
    has_shape d1 d2 (NonlinearEqualityConstraint3.lG12sum s) = true ->
    has_shape d1 d3 (NonlinearEqualityConstraint3.lG13sum s) = true ->
    has_shape d2 d2 (NonlinearEqualityConstraint3.lG22sum s) = true ->
    has_shape d2 d3 (NonlinearEqualityConstraint3.lG23sum s) = true ->
    has_shape d3 d3 (NonlinearEqualityConstraint3.lG33sum s) = true ->
    (i + count = dim lambda)%nat ->
    yields
      (for_from i count (NonlinearEqualityConstraint3.loop_body lambda G) s)
      (NonlinearEqualityConstraint3.mkSums
         (weighted_sum (skipn i lambda)
            (skipn i (NonlinearEqualityConstraint3.G11 G))
            (NonlinearEqualityConstraint3.lG11sum s))
         (weighted_sum (skipn i lambda)
            (skipn i (NonlinearEqualityConstraint3.G12 G))
            (NonlinearEqualityConstraint3.lG12sum s))
         (weighted_sum (skipn i lambda)
            (skipn i (NonlinearEqualityConstraint3.G13 G))
            (NonlinearEqualityConstraint3.lG13sum s))
         (weighted_sum (skipn i lambda)
            (skipn i (NonlinearEqualityConstraint3.G22 G))
            (NonlinearEqualityConstraint3.lG22sum s))
         (weighted_sum (skipn i lambda)
            (skipn i (NonlinearEqualityConstraint3.G23 G))
            (NonlinearEqualityConstraint3.lG23sum s))
         (weighted_sum (skipn i lambda)
            (skipn i (NonlinearEqualityConstraint3.G33 G))
            (NonlinearEqualityConstraint3.lG33sum s))).
Proof.
  intros S11 S12 S13 S22 S23 S33 H11 H12 H13 H22 H23 H33.
  induction count as [|count IH]; intros i s Z11 Z12 Z13 Z22 Z23 Z33 Hi; simpl.
  - rewrite Nat.add_0_r in Hi. subst i. rewrite !weighted_sum_end.
    destruct s. apply yields_ret.
  - destruct (nth_error_inside lambda i) as (l & Hl); [unfold dim in *; lia|].
    destruct (nth_error_inside (NonlinearEqualityConstraint3.G11 G) i)
      as (g11 & Hg11); [lia|].
    destruct (nth_error_inside (NonlinearEqualityConstraint3.G12 G) i)
      as (g12 & Hg12); [lia|].
    destruct (nth_error_inside (NonlinearEqualityConstraint3.G13 G) i)
      as (g13 & Hg13); [lia|].
    destruct (nth_error_inside (NonlinearEqualityConstraint3.G22 G) i)
      as (g22 & Hg22); [lia|].
    destruct (nth_error_inside (NonlinearEqualityConstraint3.G23 G) i)
      as (g23 & Hg23); [lia|].
    destruct (nth_error_inside (NonlinearEqualityConstraint3.G33 G) i)
      as (g33 & Hg33); [lia|].
    rewrite (weighted_sum_skipn lambda _ i _ l g11 Hl Hg11),
      (weighted_sum_skipn lambda _ i _ l g12 Hl Hg12),
      (weighted_sum_skipn lambda _ i _ l g13 Hl Hg13),
      (weighted_sum_skipn lambda _ i _ l g22 Hl Hg22),
      (weighted_sum_skipn lambda _ i _ l g23 Hl Hg23),
      (weighted_sum_skipn lambda _ i _ l g33 Hl Hg33).
    destruct (add_scaled_step Eigen _ _ lambda _ i _ l g11 S11 Z11 Hl Hg11)
      as (Y11 & Z11').
    destruct (add_scaled_step Eigen _ _ lambda _ i _ l g12 S12 Z12 Hl Hg12)
      as (Y12 & Z12').
    destruct (add_scaled_step Eigen _ _ lambda _ i _ l g13 S13 Z13 Hl Hg13)
      as (Y13 & Z13').
    destruct (add_scaled_step Eigen _ _ lambda _ i _ l g22 S22 Z22 Hl Hg22)
      as (Y22 & Z22').
    destruct (add_scaled_step Eigen _ _ lambda _ i _ l g23 S23 Z23 Hl Hg23)
      as (Y23 & Z23').
    destruct (add_scaled_step Eigen _ _ lambda _ i _ l g33 S33 Z33 Hl Hg33)
      as (Y33 & Z33').
    eapply yields_bind.
    { unfold NonlinearEqualityConstraint3.loop_body.
      eapply yields_bind; [exact Y11|].
      eapply yields_bind; [exact Y12|].
      eapply yields_bind; [exact Y13|].
      eapply yields_bind; [exact Y22|].
      eapply yields_bind; [exact Y23|].
      eapply yields_bind; [exact Y33|].
      apply yields_ret. }
    apply (IH (Datatypes.S i)); [exact Z11'|exact Z12'|exact Z13'|exact Z22'|exact Z23'|exact Z33'|lia].
Qed.

Lemma multipliedHessian3_throws (c : NonlinearEqualityConstraint3.t)
  (x : Values) (duals : VectorValues) (tr : list Event)
  (x1 x2 x3 : Value) (lambda : Vector) :
  NonlinearEqualityConstraint3.active c x = true ->
  Values_at x (NonlinearEqualityConstraint3.key1 c) = Some x1 ->
  Values_at x (NonlinearEqualityConstraint3.key2 c) = Some x2 ->
  Values_at x (NonlinearEqualityConstraint3.key3 c) = Some x3 ->
  VectorValues_at duals (dualKey (NonlinearEqualityConstraint3.base c))
  = Some lambda ->
  let G := NonlinearEqualityConstraint3.evaluateHessians c x1 x2 x3 in
  dim lambda <> List.length (NonlinearEqualityConstraint3.G11 G)
  \/ dim lambda <> List.length (NonlinearEqualityConstraint3.G12 G)
  \/ dim lambda <> List.length (NonlinearEqualityConstraint3.G13 G)
  \/ dim lambda <> List.length (NonlinearEqualityConstraint3.G22 G)
  \/ dim lambda <> List.length (NonlinearEqualityConstraint3.G23 G)
  \/ dim lambda <> List.length (NonlinearEqualityConstraint3.G33 G) ->
  fst (NonlinearEqualityConstraint3.multipliedHessian c x duals tr)
  = Threw (runtime_error dimension_error).
Proof.
  intros Hact Hx1 Hx2 Hx3 Hl G Hne.
  unfold NonlinearEqualityConstraint3.multipliedHessian.
  rewrite Hact. cbn [negb].
  rewrite (bind_at_Values _ _ _ _ _ Hx1), (bind_at_Values _ _ _ _ _ Hx2),
    (bind_at_Values _ _ _ _ _ Hx3), (bind_at_VectorValues _ _ _ _ _ Hl).
  unfold NonlinearEqualityConstraint3.call_evaluateHessians.
  rewrite bind_emit_ret. fold G.
  assert (Hcond :
    negb (dim lambda =? List.length (NonlinearEqualityConstraint3.G11 G))%nat
    || negb (dim lambda =? List.length (NonlinearEqualityConstraint3.G12 G))%nat
    || negb (dim lambda =? List.length (NonlinearEqualityConstraint3.G13 G))%nat
    || negb (dim lambda =? List.length (NonlinearEqualityConstraint3.G22 G))%nat
    || negb (dim lambda =? List.length (NonlinearEqualityConstraint3.G23 G))%nat
    || negb (dim lambda =? List.length (NonlinearEqualityConstraint3.G33 G))%nat
    = true).
  { destruct Hne as [H|[H|[H|[H|[H|H]]]]]; rewrite (eqb_mismatch _ _ H);
      rewrite ?orb_true_r; reflexivity. }
  now rewrite Hcond.
Qed.

Lemma multipliedHessian3_returns (Eigen : EigenShapes)
  (c : NonlinearEqualityConstraint3.t)
  (x : Values) (duals : VectorValues) (tr : list Event)
  (x1 x2 x3 : Value) (lambda : Vector)
  (A11 A12 A13 A22 A23 A33 : Matrix) :
  NonlinearEqualityConstraint3.active c x = true ->
  Values_at x (NonlinearEqualityConstraint3.key1 c) = Some x1 ->
  Values_at x (NonlinearEqualityConstraint3.key2 c) = Some x2 ->
  Values_at x (NonlinearEqualityConstraint3.key3 c) = Some x3 ->
  VectorValues_at duals (dualKey (NonlinearEqualityConstraint3.base c))
  = Some lambda ->
  let G := NonlinearEqualityConstraint3.evaluateHessians c x1 x2 x3 in
  dim lambda = List.length (NonlinearEqualityConstraint3.G11 G) ->
  dim lambda = List.length (NonlinearEqualityConstraint3.G12 G) ->
  dim lambda = List.length (NonlinearEqualityConstraint3.G13 G) ->
  dim lambda = List.length (NonlinearEqualityConstraint3.G22 G) ->
  dim lambda = List.length (NonlinearEqualityConstraint3.G23 G) ->
  dim lambda = List.length (NonlinearEqualityConstraint3.G33 G) ->
  nth_error (NonlinearEqualityConstraint3.G11 G) 0 = Some A11 ->
  nth_error (NonlinearEqualityConstraint3.G12 G) 0 = Some A12 ->
  nth_error (NonlinearEqualityConstraint3.G13 G) 0 = Some A13 ->
  nth_error (NonlinearEqualityConstraint3.G22 G) 0 = Some A22 ->
  nth_error (NonlinearEqualityConstraint3.G23 G) 0 = Some A23 ->
  nth_error (NonlinearEqualityConstraint3.G33 G) 0 = Some A33 ->
  all_shaped (NonlinearEqualityConstraint3.X1Dim c) (NonlinearEqualityConstraint3.X1Dim c)
    (NonlinearEqualityConstraint3.G11 G) = true ->
  all_shaped (NonlinearEqualityConstraint3.X1Dim c) (NonlinearEqualityConstraint3.X2Dim c)
    (NonlinearEqualityConstraint3.G12 G) = true ->
  all_shaped (NonlinearEqualityConstraint3.X1Dim c) (NonlinearEqualityConstraint3.X3Dim c)
    (NonlinearEqualityConstraint3.G13 G) = true ->
  all_shaped (NonlinearEqualityConstraint3.X2Dim c) (NonlinearEqualityConstraint3.X2Dim c)
    (NonlinearEqualityConstraint3.G22 G) = true ->
  all_shaped (NonlinearEqualityConstraint3.X2Dim c) (NonlinearEqualityConstraint3.X3Dim c)
    (NonlinearEqualityConstraint3.G23 G) = true ->
  all_shaped (NonlinearEqualityConstraint3.X3Dim c) (NonlinearEqualityConstraint3.X3Dim c)
    (NonlinearEqualityConstraint3.G33 G) = true ->
  NonlinearEqualityConstraint3.multipliedHessian c x duals tr
  = (Returned
       (Some
          (HessianFactor_3
             (NonlinearEqualityConstraint3.key2 c)
             (NonlinearEqualityConstraint3.key2 c)
             (NonlinearEqualityConstraint3.key3 c)
             (weighted_sum lambda (NonlinearEqualityConstraint3.G11 G)
                (zeros (Matrix_rows A11) (Matrix_cols A11)))
             (weighted_sum lambda (NonlinearEqualityConstraint3.G12 G)
                (zeros (Matrix_rows A12) (Matrix_cols A12)))
             (weighted_sum lambda (NonlinearEqualityConstraint3.G13 G)
                (zeros (Matrix_rows A13) (Matrix_cols A13)))
             (zero (NonlinearEqualityConstraint3.X1Dim c))
             (weighted_sum lambda (NonlinearEqualityConstraint3.G22 G)
                (zeros (Matrix_rows A22) (Matrix_cols A22)))
             (weighted_sum lambda (NonlinearEqualityConstraint3.G23 G)
                (zeros (Matrix_rows A23) (Matrix_cols A23)))
             (zero (NonlinearEqualityConstraint3.X2Dim c))
             (weighted_sum lambda (NonlinearEqualityConstraint3.G33 G)
                (zeros (Matrix_rows A33) (Matrix_cols A33)))
             (zero (NonlinearEqualityConstraint3.X3Dim c))
             (double_of_Z 0))),
     tr ++ [ValuesAt (NonlinearEqualityConstraint3.key1 c);
            ValuesAt (NonlinearEqualityConstraint3.key2 c);
            ValuesAt (NonlinearEqualityConstraint3.key3 c);
            DualsAt (dualKey (NonlinearEqualityConstraint3.base c));
            EvaluateHessians]).
Proof.
  intros Hact Hx1 Hx2 Hx3 Hl G H11 H12 H13 H22 H23 H33
    HA11 HA12 HA13 HA22 HA23 HA33 S11 S12 S13 S22 S23 S33.
  assert (Z11 := zeros_like_shape Eigen _ _ A11 (all_shaped_nth _ _ _ _ _ S11 HA11)).
  assert (Z12 := zeros_like_shape Eigen _ _ A12 (all_shaped_nth _ _ _ _ _ S12 HA12)).
  assert (Z13 := zeros_like_shape Eigen _ _ A13 (all_shaped_nth _ _ _ _ _ S13 HA13)).
  assert (Z22 := zeros_like_shape Eigen _ _ A22 (all_shaped_nth _ _ _ _ _ S22 HA22)).
  assert (Z23 := zeros_like_shape Eigen _ _ A23 (all_shaped_nth _ _ _ _ _ S23 HA23)).
  assert (Z33 := zeros_like_shape Eigen _ _ A33 (all_shaped_nth _ _ _ _ _ S33 HA33)).
  unfold NonlinearEqualityConstraint3.multipliedHessian.
  rewrite Hact. cbn [negb].
  rewrite (bind_at_Values _ _ _ _ _ Hx1), (bind_at_Values _ _ _ _ _ Hx2),
    (bind_at_Values _ _ _ _ _ Hx3), (bind_at_VectorValues _ _ _ _ _ Hl).
  unfold NonlinearEqualityConstraint3.call_evaluateHessians.
  rewrite bind_emit_ret. fold G.
  rewrite (eqb_match _ _ H11), (eqb_match _ _ H12), (eqb_match _ _ H13), (eqb_match _ _ H22), (eqb_match _ _ H23), (eqb_match _ _ H33), app_five.
  cbn [orb].
  rewrite (bind_yields _ _ _ _ (zeros_like_first_value _ _ HA11)),
    (bind_yields _ _ _ _ (zeros_like_first_value _ _ HA12)),
    (bind_yields _ _ _ _ (zeros_like_first_value _ _ HA13)),
    (bind_yields _ _ _ _ (zeros_like_first_value _ _ HA22)),
    (bind_yields _ _ _ _ (zeros_like_first_value _ _ HA23)),
    (bind_yields _ _ _ _ (zeros_like_first_value _ _ HA33)).
  unfold for_loop.
  rewrite (bind_yields _ _ _ _
             (for_from_loop_body3 Eigen _ _ _ lambda G (dim lambda)
                S11 S12 S13 S22 S23 S33
                H11 H12 H13 H22 H23 H33 0
                (NonlinearEqualityConstraint3.mkSums
                   (zeros (Matrix_rows A11) (Matrix_cols A11))
                   (zeros (Matrix_rows A12) (Matrix_cols A12))
                   (zeros (Matrix_rows A13) (Matrix_cols A13))
                   (zeros (Matrix_rows A22) (Matrix_cols A22))
                   (zeros (Matrix_rows A23) (Matrix_cols A23))
                   (zeros (Matrix_rows A33) (Matrix_cols A33)))
                Z11 Z12 Z13 Z22 Z23 Z33 eq_refl)).
  unfold new_HessianFactor_3, bind.
  cbn [skipn NonlinearEqualityConstraint3.lG11sum NonlinearEqualityConstraint3.lG12sum NonlinearEqualityConstraint3.lG13sum NonlinearEqualityConstraint3.lG22sum NonlinearEqualityConstraint3.lG23sum NonlinearEqualityConstraint3.lG33sum].
  assert (W11 := weighted_sum_shape Eigen _ _ lambda _ _ S11 Z11).
  assert (W12 := weighted_sum_shape Eigen _ _ lambda _ _ S12 Z12).
  assert (W13 := weighted_sum_shape Eigen _ _ lambda _ _ S13 Z13).
  assert (W22 := weighted_sum_shape Eigen _ _ lambda _ _ S22 Z22).
  assert (W23 := weighted_sum_shape Eigen _ _ lambda _ _ S23 Z23).
  assert (W33 := weighted_sum_shape Eigen _ _ lambda _ _ S33 Z33).
  now rewrite (square_with_zero _ _ W11), (square_with_zero _ _ W22),
    (square_with_zero _ _ W33), (between_shapes _ _ _ _ _ W12 W11 W22),
    (between_shapes _ _ _ _ _ W13 W11 W33),
    (between_shapes _ _ _ _ _ W23 W22 W33).
Qed.

(** Pick the disjunct that is the hypothesis [H]. *)
Ltac pick_disjunct H := first [exact H | left; exact H | right; pick_disjunct H].

(** Membership in a list written out. *)
Ltac in_listed := simpl; first [left; reflexivity | right; in_listed].

Lemma checks_dimension_intro (r : Outcome (option HessianFactor))
  (lambda : Vector) (sizes : list nat) :
  ((exists n, In n sizes /\ dim lambda <> n) ->
     r = Threw (runtime_error dimension_error)) ->
  ((forall n, In n sizes -> dim lambda = n) ->
     exists hf, r = Returned (Some hf)) ->
  checks_dimension r lambda sizes.
Proof.
  intros Hthrow Hret. split; [split|exact Hret].
  - intros (e & He).
    destruct (Forall_Exists_dec (fun n => dim lambda = n)
                (fun n => Nat.eq_dec (dim lambda) n) sizes) as [Hall|Hex].
    + rewrite Forall_forall in Hall.
      destruct (Hret Hall) as (hf & Hhf). congruence.
    + apply Exists_exists in Hex. exact Hex.
  - intros Hex. rewrite (Hthrow Hex). eauto.
Qed.

(** ** The claims about the equality constraints *)

(** C7, as the code has it.  For an active constraint of one, two or
    three variables whose values and dual vector are found, whose dual
    vector has at least one component and whose [evaluateHessians] hands
    back blocks of the shapes of its variables (every block of [Gab] is
    [XaDim x XbDim]), [multipliedHessian] leaves through an exception
    exactly when the size of one of the block lists differs from the
    dimension of [lambda], the exception being the [std::runtime_error] of
    the dimension check, and returns a [HessianFactor] otherwise. *)
Theorem multipliedHessian_dimension_check (Eigen : EigenShapes) :
  (forall (c : NonlinearEqualityConstraint1.t) (x : Values)
          (duals : VectorValues) (tr : list Event) (x1 : Value)
          (lambda : Vector),
     NonlinearEqualityConstraint1.active c x = true ->
     Values_at x (NonlinearEqualityConstraint1.key c) = Some x1 ->
     VectorValues_at duals (dualKey (NonlinearEqualityConstraint1.base c))
     = Some lambda ->
     (1 <= dim lambda)%nat ->
     let G11 := NonlinearEqualityConstraint1.evaluateHessians c x1 in
     all_shaped (NonlinearEqualityConstraint1.X1Dim c)
       (NonlinearEqualityConstraint1.X1Dim c) G11 = true ->
     let sizes := [List.length G11] in
     let r :=
       fst (NonlinearEqualityConstraint1.multipliedHessian c x duals tr) in
     checks_dimension r lambda sizes
     /\ ((exists n, In n sizes /\ dim lambda <> n) ->
         r = Threw (runtime_error dimension_error)))
  /\ (forall (c : NonlinearEqualityConstraint2.t) (x : Values)
          (duals : VectorValues) (tr : list Event) (x1 x2 : Value)
          (lambda : Vector),
     NonlinearEqualityConstraint2.active c x = true ->
     Values_at x (NonlinearEqualityConstraint2.key1 c) = Some x1 ->
     Values_at x (NonlinearEqualityConstraint2.key2 c) = Some x2 ->
     VectorValues_at duals (dualKey (NonlinearEqualityConstraint2.base c))
     = Some lambda ->
     (1 <= dim lambda)%nat ->
     let G := NonlinearEqualityConstraint2.evaluateHessians c x1 x2 in
     all_shaped (NonlinearEqualityConstraint2.X1Dim c)
       (NonlinearEqualityConstraint2.X1Dim c)
       (NonlinearEqualityConstraint2.G11 G) = true ->
     all_shaped (NonlinearEqualityConstraint2.X1Dim c)
       (NonlinearEqualityConstraint2.X2Dim c)
       (NonlinearEqualityConstraint2.G12 G) = true ->
     all_shaped (NonlinearEqualityConstraint2.X2Dim c)
       (NonlinearEqualityConstraint2.X2Dim c)
       (NonlinearEqualityConstraint2.G22 G) = true ->
     let sizes :=
       [List.length (NonlinearEqualityConstraint2.G11 G);
        List.length (NonlinearEqualityConstraint2.G12 G);
        List.length (NonlinearEqualityConstraint2.G22 G)] in
     let r :=
       fst (NonlinearEqualityConstraint2.multipliedHessian c x duals tr) in
     checks_dimension r lambda sizes
     /\ ((exists n, In n sizes /\ dim lambda <> n) ->
         r = Threw (runtime_error dimension_error)))
  /\ (forall (c : NonlinearEqualityConstraint3.t) (x : Values)
          (duals : VectorValues) (tr : list Event) (x1 x2 x3 : Value)
          (lambda : Vector),
     NonlinearEqualityConstraint3.active c x = true ->
     Values_at x (NonlinearEqualityConstraint3.key1 c) = Some x1 ->
     Values_at x (NonlinearEqualityConstraint3.key2 c) = Some x2 ->
     Values_at x (NonlinearEqualityConstraint3.key3 c) = Some x3 ->
     VectorValues_at duals (dualKey (NonlinearEqualityConstraint3.base c))
     = Some lambda ->
     (1 <= dim lambda)%nat ->
     let G := NonlinearEqualityConstraint3.evaluateHessians c x1 x2 x3 in
     all_shaped (NonlinearEqualityConstraint3.X1Dim c)
       (NonlinearEqualityConstraint3.X1Dim c)
       (NonlinearEqualityConstraint3.G11 G) = true ->
     all_shaped (NonlinearEqualityConstraint3.X1Dim c)
       (NonlinearEqualityConstraint3.X2Dim c)
       (NonlinearEqualityConstraint3.G12 G) = true ->
     all_shaped (NonlinearEqualityConstraint3.X1Dim c)
       (NonlinearEqualityConstraint3.X3Dim c)
       (NonlinearEqualityConstraint3.G13 G) = true ->
     all_shaped (NonlinearEqualityConstraint3.X2Dim c)
       (NonlinearEqualityConstraint3.X2Dim c)
       (NonlinearEqualityConstraint3.G22 G) = true ->
     all_shaped (NonlinearEqualityConstraint3.X2Dim c)
       (NonlinearEqualityConstraint3.X3Dim c)
       (NonlinearEqualityConstraint3.G23 G) = true ->
     all_shaped (NonlinearEqualityConstraint3.X3Dim c)
       (NonlinearEqualityConstraint3.X3Dim c)
       (NonlinearEqualityConstraint3.G33 G) = true ->
     let sizes :=
       [List.length (NonlinearEqualityConstraint3.G11 G);
        List.length (NonlinearEqualityConstraint3.G12 G);
        List.length (NonlinearEqualityConstraint3.G13 G);
        List.length (NonlinearEqualityConstraint3.G22 G);
        List.length (NonlinearEqualityConstraint3.G23 G);
        List.length (NonlinearEqualityConstraint3.G33 G)] in
     let r :=
       fst (NonlinearEqualityConstraint3.multipliedHessian c x duals tr) in
     checks_dimension r lambda sizes
     /\ ((exists n, In n sizes /\ dim lambda <> n) ->
         r = Threw (runtime_error dimension_error))).
Proof.
  split; [|split].
  - intros c x duals tr x1 lambda Hact Hx Hl Hpos G11 S11 sizes r.
    assert (Hex : (exists n, In n sizes /\ dim lambda <> n) ->
                  r = Threw (runtime_error dimension_error)).
    { intros (n & Hin & Hne).
      apply (multipliedHessian1_throws c x duals tr x1 lambda Hact Hx Hl).
      simpl in Hin. destruct Hin as [<-|[]]. exact Hne. }
    split; [|exact Hex]. apply checks_dimension_intro; [exact Hex|].
    intros Hall. assert (H11 : dim lambda = List.length G11)
      by (apply Hall; in_listed).
    destruct (nth_error_inside G11 0) as (A11 & HA11); [lia|].
    unfold r.
    rewrite (multipliedHessian1_returns Eigen c x duals tr x1 lambda A11
               Hact Hx Hl H11 HA11 S11).
    eexists. reflexivity.
  - intros c x duals tr x1 x2 lambda Hact Hx1 Hx2 Hl Hpos G S11 S12 S22
      sizes r.
    assert (Hex : (exists n, In n sizes /\ dim lambda <> n) ->
                  r = Threw (runtime_error dimension_error)).
    { intros (n & Hin & Hne).
      apply (multipliedHessian2_throws c x duals tr x1 x2 lambda
               Hact Hx1 Hx2 Hl).
      simpl in Hin. destruct Hin as [<-|[<-|[<-|[]]]]; pick_disjunct Hne. }
    split; [|exact Hex]. apply checks_dimension_intro; [exact Hex|].
    intros Hall.
    assert (H11 : dim lambda = List.length (NonlinearEqualityConstraint2.G11 G))
      by (apply Hall; in_listed).
    assert (H12 : dim lambda = List.length (NonlinearEqualityConstraint2.G12 G))
      by (apply Hall; in_listed).
    assert (H22 : dim lambda = List.length (NonlinearEqualityConstraint2.G22 G))
      by (apply Hall; in_listed).
    destruct (nth_error_inside (NonlinearEqualityConstraint2.G11 G) 0)
      as (A11 & HA11); [lia|].
    destruct (nth_error_inside (NonlinearEqualityConstraint2.G12 G) 0)
      as (A12 & HA12); [lia|].
    destruct (nth_error_inside (NonlinearEqualityConstraint2.G22 G) 0)
      as (A22 & HA22); [lia|].
    unfold r.
    rewrite (multipliedHessian2_returns Eigen c x duals tr x1 x2 lambda
               A11 A12 A22 Hact Hx1 Hx2 Hl H11 H12 H22 HA11 HA12 HA22
               S11 S12 S22).
    eexists. reflexivity.
  - intros c x duals tr x1 x2 x3 lambda Hact Hx1 Hx2 Hx3 Hl Hpos G
      S11 S12 S13 S22 S23 S33 sizes r.
    assert (Hex : (exists n, In n sizes /\ dim lambda <> n) ->
                  r = Threw (runtime_error dimension_error)).
    { intros (n & Hin & Hne).
      apply (multipliedHessian3_throws c x duals tr x1 x2 x3 lambda
               Hact Hx1 Hx2 Hx3 Hl).
      simpl in Hin.
      destruct Hin as [<-|[<-|[<-|[<-|[<-|[<-|[]]]]]]]; pick_disjunct Hne. }
    split; [|exact Hex]. apply checks_dimension_intro; [exact Hex|].
    intros Hall.
    assert (H11 : dim lambda = List.length (NonlinearEqualityConstraint3.G11 G))
      by (apply Hall; in_listed).
    assert (H12 : dim lambda = List.length (NonlinearEqualityConstraint3.G12 G))
      by (apply Hall; in_listed).
    assert (H13 : dim lambda = List.length (NonlinearEqualityConstraint3.G13 G))
      by (apply Hall; in_listed).
    assert (H22 : dim lambda = List.length (NonlinearEqualityConstraint3.G22 G))
      by (apply Hall; in_listed).
    assert (H23 : dim lambda = List.length (NonlinearEqualityConstraint3.G23 G))
      by (apply Hall; in_listed).
    assert (H33 : dim lambda = List.length (NonlinearEqualityConstraint3.G33 G))
      by (apply Hall; in_listed).
    destruct (nth_error_inside (NonlinearEqualityConstraint3.G11 G) 0)
      as (A11 & HA11); [lia|].
    destruct (nth_error_inside (NonlinearEqualityConstraint3.G12 G) 0)
      as (A12 & HA12); [lia|].
    destruct (nth_error_inside (NonlinearEqualityConstraint3.G13 G) 0)
      as (A13 & HA13); [lia|].
    destruct (nth_error_inside (NonlinearEqualityConstraint3.G22 G) 0)
      as (A22 & HA22); [lia|].
    destruct (nth_error_inside (NonlinearEqualityConstraint3.G23 G) 0)
      as (A23 & HA23); [lia|].
    destruct (nth_error_inside (NonlinearEqualityConstraint3.G33 G) 0)
      as (A33 & HA33); [lia|].
    unfold r.
    rewrite (multipliedHessian3_returns Eigen c x duals tr x1 x2 x3 lambda
               A11 A12 A13 A22 A23 A33 Hact Hx1 Hx2 Hx3 Hl
               H11 H12 H13 H22 H23 H33 HA11 HA12 HA13 HA22 HA23 HA33
               S11 S12 S13 S22 S23 S33).
    eexists. reflexivity.
Qed.

(** C9. When the constraint is not active at [x], [multipliedHessian] of
    the one-, two- and three-variable class returns the empty pointer and
    calls neither [evaluateHessians] nor [at] on the values or on the dual
    vectors. *)
Theorem multipliedHessian_inactive :
  (forall (c : NonlinearEqualityConstraint1.t) (x : Values)
          (duals : VectorValues) (tr : list Event),
     NonlinearEqualityConstraint1.active c x = false ->
     NonlinearEqualityConstraint1.multipliedHessian c x duals tr
     = (Returned None, tr))
  /\ (forall (c : NonlinearEqualityConstraint2.t) (x : Values)
          (duals : VectorValues) (tr : list Event),
     NonlinearEqualityConstraint2.active c x = false ->
     NonlinearEqualityConstraint2.multipliedHessian c x duals tr
     = (Returned None, tr))
  /\ (forall (c : NonlinearEqualityConstraint3.t) (x : Values)
          (duals : VectorValues) (tr : list Event),
     NonlinearEqualityConstraint3.active c x = false ->
     NonlinearEqualityConstraint3.multipliedHessian c x duals tr
     = (Returned None, tr)).
Proof.
  split; [|split]; intros c x duals tr Hact.
  - unfold NonlinearEqualityConstraint1.multipliedHessian.
    now rewrite Hact.
  - unfold NonlinearEqualityConstraint2.multipliedHessian.
    now rewrite Hact.
  - unfold NonlinearEqualityConstraint3.multipliedHessian.
    now rewrite Hact.
Qed.

(** C10. [isActive_] answers [true] whatever [setActive_] has written:
    the flag [active_] is stored by [setActive_] and read by nobody. *)
Theorem isActive__ignores_setActive_ (c : NonlinearEqualityConstraint)
  (flag : bool) (flags : list bool) :
  isActive_ c = true
  /\ active_ (setActive_ flag c) = flag
  /\ isActive_ (setActive_ flag c) = true
  /\ isActive_ (fold_left (fun c0 b => setActive_ b c0) flags c) = true
  /\ isActive_ (setActive_ false c) = isActive_ (setActive_ true c).
Proof. repeat split. Qed.

End ConstraintProperties.

(* ====================================================================== *)
(** * Part VI: the properties on concrete nodes and constraints *)
(* ====================================================================== *)

Import Examples ConstraintExamples.

Lemma Leaf_row_count_generic : row_count_generic Leaf.
Proof. intros self a b jac H. simpl. now rewrite H. Qed.

Lemma static_dynamic_equivalence_witness :
  reverseAD 3 U_static leaf_world = reverseAD 3 U_dynamic leaf_world
  /\ reverseAD 3 U_static leaf_world
     = Some {| recorder := Recorder Leaf 3 7%N;
               jacobians := [(7%N, [[1; 2; 3]%Z])] |}.
Proof.
  destruct (static_dynamic_equivalence Z Jacobians N Leaf 3 1
              [[1; 2; 3]%Z] 7%N [])
    as (_ & Hs & _ & Heq).
  - unfold Dynamic. lia.
  - unfold MaxVirtualStaticRows. lia.
  - exact Leaf_row_count_generic.
  - split; [exact Heq|exact Hs].
Defined.

Lemma reverseAD_dispatch_witness :
  viable_reverseAD Jacobians N 3 (converted U_static) = [_reverseAD 1 3]
  /\ viable_reverseAD Jacobians N 3 (converted U_five)
     = [_reverseAD Dynamic 3]
  /\ coeffs (converted U_five) = coeffs U_five.
Proof.
  assert (Hc : (3 <> Dynamic)%Z) by (unfold Dynamic; lia).
  split; [|split].
  - apply (reverseAD_dispatch Z Jacobians N 3 1 [[1; 2; 3]%Z] leaf_world Hc).
    unfold MaxVirtualStaticRows. lia.
  - apply (reverseAD_dispatch Z Jacobians N 3 5 (coeffs U_five) leaf_world Hc).
    left. unfold MaxVirtualStaticRows. lia.
  - apply (reverseAD_dispatch Z Jacobians N 3 5 (coeffs U_five) leaf_world Hc).
    unfold MaxVirtualStaticRows. lia.
Defined.

Lemma ConvertToDynamicRowsIf_selected_witness :
  ConvertToDynamicRowsIf false U_static = U_static
  /\ ConvertToDynamicRowsIf false U_dynamic = U_dynamic
  /\ RowsAtCompileTime (ConvertToDynamicRowsIf true U_five) = Dynamic
  /\ ColsAtCompileTime (ConvertToDynamicRowsIf true U_five) = 3%Z
  /\ coeffs (ConvertToDynamicRowsIf true U_five) = coeffs U_five.
Proof.
  split; [|split].
  - apply (proj1 (ConvertToDynamicRowsIf_selected Z U_static)).
    left. unfold MaxVirtualStaticRows. simpl. lia.
  - apply (proj1 (ConvertToDynamicRowsIf_selected Z U_dynamic)).
    right. reflexivity.
  - apply (proj2 (ConvertToDynamicRowsIf_selected Z U_five)).
    unfold MaxVirtualStaticRows. simpl. lia.
Defined.

Lemma ReverseADInterface_entry_points_witness :
  NoDup (slots (ReverseADInterface Z Jacobians N 4 3))
  /\ exists b,
       final_overrider (_reverseAD 2 3)
         (derive Leaf_definitions (CallRecord.CallRecord Z Jacobians N 3))
       = Some b.
Proof.
  split.
  - apply (ReverseADInterface_entry_points Z Jacobians N 4 3).
    unfold Dynamic. lia.
  - apply (ReverseADInterface_entry_points Z Jacobians N 4 3).
    + reflexivity.
    + simpl. right. right. right. left. reflexivity.
Defined.

(** C5 as stated fails: for [Cols = 3] the interface has an entry point,
    the fully dynamic one, whose column count is not [3]. *)
Lemma fully_dynamic_entry_point_has_dynamic_columns :
  ~ (forall r c : Z,
       In (_reverseAD r c)
          (slots (ReverseADInterface Z Jacobians N
                    (Z.to_nat MaxVirtualStaticRows) 3)) ->
       c = 3%Z).
Proof.
  intros H. specialize (H Dynamic Dynamic).
  assert (Hd : Dynamic = 3%Z) by (apply H; simpl; right; left; reflexivity).
  discriminate Hd.
Qed.

Lemma entry_point_shapes_witness :
  (3 = 3 /\ (1 <= 2 <= MaxVirtualStaticRows \/ 2 = Dynamic)
   \/ 2 = Dynamic /\ 3 = Dynamic)%Z.
Proof.
  apply (proj1 (entry_point_shapes Z Jacobians N 3 2 3)).
  simpl. right. right. right. left. reflexivity.
Defined.

(** C7 as stated fails: an active one-variable constraint whose dual
    vector has no component and whose [evaluateHessians] hands back no
    block passes the check, and then reads [G11[0]] of an empty vector
    instead of returning a factor. *)
Lemma multipliedHessian_of_empty_constraint :
  let r := fst (NonlinearEqualityConstraint1.multipliedHessian
                  c1_empty x0 duals0 []) in
  NonlinearEqualityConstraint1.active c1_empty x0 = true
  /\ r = Undefined
  /\ ~ checks_dimension (E := ZEnv) r []
         [List.length
            (NonlinearEqualityConstraint1.evaluateHessians c1_empty 5%Z)].
Proof.
  split; [reflexivity|]. split; [reflexivity|].
  intros [_ Hret]. destruct Hret as (hf & Hhf).
  - intros n [<-|[]]. reflexivity.
  - discriminate Hhf.
Qed.

Lemma ZEnv_shapes : @EigenShapes ZEnv.
Proof.
  split.
  - intros A. apply same_shape_iff. simpl. rewrite repeat_length.
    split; [reflexivity|]. destruct A as [|a A]; simpl; [reflexivity|].
    apply repeat_length.
  - intros s A. apply same_shape_iff. simpl. unfold ZMatrix_scale.
    rewrite length_map. split; [reflexivity|].
    destruct A as [|a A]; simpl; [reflexivity|]. apply length_map.
  - intros A B H. apply same_shape_iff in H as [Hr Hc].
    apply same_shape_iff. simpl in *. unfold ZMatrix_add.
    rewrite length_map, length_combine, <- Hr, Nat.min_id.
    split; [reflexivity|].
    destruct A as [|a A], B as [|b B]; simpl in *; try reflexivity;
      try discriminate.
    now rewrite length_map, length_combine, <- Hc, Nat.min_id.
Qed.

Lemma multipliedHessian_dimension_check_witness :
  checks_dimension (E := ZEnv)
    (fst (NonlinearEqualityConstraint1.multipliedHessian c1 x0 duals1 []))
    [3%Z] [1%nat]
  /\ checks_dimension (E := ZEnv)
       (fst (NonlinearEqualityConstraint2.multipliedHessian c2 x0 duals1 []))
       [3%Z] [1%nat; 1%nat; 1%nat]
  /\ checks_dimension (E := ZEnv)
       (fst (NonlinearEqualityConstraint3.multipliedHessian c3 x0 duals1 []))
       [3%Z] [1%nat; 1%nat; 1%nat; 1%nat; 1%nat; 1%nat].
Proof.
  split; [|split].
  - apply (proj1 (@multipliedHessian_dimension_check ZEnv ZEnv_shapes)
             c1 x0 duals1 [] 5%Z [3%Z]);
      reflexivity.
  - apply (proj1 (proj2 (@multipliedHessian_dimension_check ZEnv ZEnv_shapes))
             c2 x0 duals1 [] 5%Z 5%Z [3%Z]);
      reflexivity.
  - apply (proj2 (proj2 (@multipliedHessian_dimension_check ZEnv ZEnv_shapes))
             c3 x0 duals1 [] 5%Z 5%Z 5%Z [3%Z]);
      reflexivity.
Defined.

(** C8 on a concrete constraint: for the active constraint on the
    variables [1], [2], [3] with one block per list and a dual vector of
    one component, the factor [multipliedHessian] returns has the keys
    [2], [2], [3]: the constructor is called with [Base::key2()] where the
    first key belongs. *)
Theorem multipliedHessian3_keys :
  exists hf tr,
    NonlinearEqualityConstraint3.multipliedHessian c3 x0 duals1 []
    = (Returned (Some hf), tr)
    /\ keys hf = [2%N; 2%N; 3%N]
    /\ keys hf <> [NonlinearEqualityConstraint3.key1 c3;
                   NonlinearEqualityConstraint3.key2 c3;
                   NonlinearEqualityConstraint3.key3 c3].
Proof.
  eexists. eexists. split; [vm_compute; reflexivity|].
  split; [reflexivity|]. simpl. discriminate.
Qed.

Lemma multipliedHessian_inactive_witness :
  NonlinearEqualityConstraint1.multipliedHessian c1_inactive x0 duals1 []
  = (Returned None, [])
  /\ NonlinearEqualityConstraint2.multipliedHessian c2_inactive x0 duals1 []
     = (Returned None, [])
  /\ NonlinearEqualityConstraint3.multipliedHessian c3_inactive x0 duals1 []
     = (Returned None, []).
Proof.
  split; [|split].
  - apply (proj1 (@multipliedHessian_inactive ZEnv)). reflexivity.
  - apply (proj1 (proj2 (@multipliedHessian_inactive ZEnv))). reflexivity.
  - apply (proj2 (proj2 (@multipliedHessian_inactive ZEnv))). reflexivity.
Defined.

(* ====================================================================== *)
(** * Part VII: further properties of CallRecord.h *)
(* ====================================================================== *)

Section DispatchFurther.

Local Open Scope Z_scope.

Variables Scalar JacobianMap Self : Type.

Local Notation Interface := (ReverseADInterface Scalar JacobianMap Self).
Local Notation K := (Z.to_nat MaxVirtualStaticRows).
Local Notation static_from Cols lo len :=
  (map (fun r => _reverseAD (Z.of_nat r) Cols) (seq lo len)).

(** ** Pure virtual member functions along the implementor chain *)

Lemma pure_virtual_slots_app (c1 c2 : CallRecord.Class Scalar JacobianMap Self) :
  pure_virtual_slots (c1 ++ c2)
  = pure_virtual_slots c1 ++ pure_virtual_slots c2.
Proof. unfold pure_virtual_slots. now rewrite filter_app, map_app. Qed.

Lemma pure_virtual_slots_override (s : Slot)
  (b : Body Scalar JacobianMap Self) cls :
  pure_virtual_slots (override s b cls)
  = filter (fun s' => negb (Slot_eqb s s')) (pure_virtual_slots cls).
Proof.
  unfold pure_virtual_slots, override.
  induction cls as [|[s' [b'|]] cls IH]; simpl; [reflexivity| |].
  - destruct (Slot_eqb s s'); simpl; exact IH.
  - destruct (Slot_eqb s s'); simpl; now rewrite IH.
Qed.

Lemma is_abstract_pure_virtual_slots
  (cls : CallRecord.Class Scalar JacobianMap Self) :
  is_abstract cls = false <-> pure_virtual_slots cls = [].
Proof.
  unfold is_abstract, pure_virtual_slots.
  induction cls as [|[s [b|]] cls IH]; simpl.
  - tauto.
  - exact IH.
  - split; discriminate.
Qed.

Lemma pure_virtual_slots_ReverseADInterface (n : nat) (Cols : Z) :
  pure_virtual_slots (Interface n Cols) = slots (Interface n Cols).
Proof.
  induction n as [|n IH]; [reflexivity|].
  change (Interface (S n) Cols)
    with (Interface n Cols ++ [(_reverseAD (Z.of_nat (S n)) Cols, None)]).
  now rewrite pure_virtual_slots_app, slots_app, IH.
Qed.

Lemma filter_other_static (s : Slot) (Cols : Z) (lo len : nat) :
  (forall r, (lo <= r < lo + len)%nat -> s <> _reverseAD (Z.of_nat r) Cols) ->
  filter (fun s' => negb (Slot_eqb s s')) (static_from Cols lo len)
  = static_from Cols lo len.
Proof.
  revert lo. induction len as [|len IH]; intros lo H; simpl; [reflexivity|].
  rewrite Slot_eqb_neq by (apply H; lia). simpl.
  rewrite IH; [reflexivity|]. intros r Hr. apply H. lia.
Qed.

(** The member functions still pure at level [n] of the chain: the entry
    points for more than [n] rows, [_print] and [_startReverseAD]. *)
Lemma pure_virtual_slots_ReverseADImplementor
  (D : Derived Scalar JacobianMap Self) (n : nat) (Cols : Z) :
  (n <= K)%nat ->
  pure_virtual_slots (ReverseADImplementor D n Cols)
  = static_from Cols (S n) (K - n) ++ [_print; _startReverseAD].
Proof.
  induction n as [|n IH]; intros Hn.
  - cbn [ReverseADImplementor]. rewrite !pure_virtual_slots_override.
    unfold CallRecord.CallRecord.
    rewrite pure_virtual_slots_app, pure_virtual_slots_ReverseADInterface,
      slots_ReverseADInterface.
    rewrite Nat.sub_0_r, <- app_assoc, !filter_app.
    rewrite !filter_other_static
      by (intros r Hr Heq; inversion Heq; unfold Dynamic in *; lia).
    cbn [filter pure_virtual_slots map snd fst app].
    rewrite !Slot_eqb_refl. cbn [negb].
    destruct (Slot_eqb_spec (_reverseAD Dynamic Cols)
                (_reverseAD Dynamic Dynamic)) as [Heq|Hne]; cbn [negb filter].
    + cbn [app Slot_eqb negb]. reflexivity.
    + rewrite Slot_eqb_refl. cbn [negb app Slot_eqb]. reflexivity.
  - change (ReverseADImplementor D (S n) Cols)
      with (override (_reverseAD (Z.of_nat (S n)) Cols)
              (body_reverseAD (Derived_reverseAD D))
              (ReverseADImplementor D n Cols)).
    rewrite pure_virtual_slots_override, IH by lia.
    replace (K - n)%nat with (S (K - S n)) by lia.
    cbn [seq map]. rewrite filter_app. cbn [filter app].
    rewrite Slot_eqb_refl. cbn [negb].
    rewrite filter_other_static; [reflexivity|].
    intros r Hr Heq. inversion Heq. lia.
Qed.

Lemma reverseAD_large_rows (Cols Rows : Z) (cs : list (list Scalar))
  (w : World Scalar JacobianMap Self) :
  MaxVirtualStaticRows < Rows ->
  reverseAD Cols (mkMatrix Rows Cols cs) w
  = reverseAD Cols (mkMatrix Dynamic Cols cs) w.
Proof.
  intros Hr. unfold reverseAD.
  rewrite (converted_large Scalar (mkMatrix Rows Cols cs)) by exact Hr.
  rewrite (converted_small Scalar (mkMatrix Dynamic Cols cs))
    by (unfold Dynamic, MaxVirtualStaticRows; simpl; lia).
  reflexivity.
Qed.

(** ** Further properties of the dispatch layer *)

(** X1. A block with more than [MaxVirtualStaticRows] static rows is
    propagated exactly as the dynamic-row block with the same
    coefficients, on any Recorder and whatever the node does. *)
Theorem reverseAD_overflow_as_dynamic (Cols Rows : Z)
  (cs : list (list Scalar)) (w : World Scalar JacobianMap Self) :
  MaxVirtualStaticRows < Rows ->
  reverseAD Cols (mkMatrix Rows Cols cs) w
  = reverseAD Cols (mkMatrix Dynamic Cols cs) w.
Proof.
  intros Hr. unfold reverseAD. cbn [ColsAtCompileTime].
  destruct (Cols =? Cols); [|reflexivity].
  rewrite (converted_large Scalar (mkMatrix Rows Cols cs)) by exact Hr.
  rewrite (converted_small Scalar (mkMatrix Dynamic Cols cs))
    by (unfold Dynamic, MaxVirtualStaticRows; simpl; lia).
  reflexivity.
Qed.

(** X2. [CallRecord<Cols>::reverseAD] never selects the fully dynamic
    overload [_reverseAD(const Matrix&, JacobianMap&)]: whatever overload
    takes the converted block has column width [Cols] and a row count
    that is dynamic or one of [1..MaxVirtualStaticRows]. *)
Theorem reverseAD_never_fully_dynamic (Cols : Z)
  (dFdT : CallRecord.Matrix Scalar) (s : Slot) :
  Cols <> Dynamic ->
  ColsAtCompileTime dFdT = Cols ->
  In s (viable_reverseAD JacobianMap Self Cols (converted dFdT)) ->
  s <> _reverseAD Dynamic Dynamic
  /\ exists r, s = _reverseAD r Cols
               /\ (r = Dynamic \/ 1 <= r <= MaxVirtualStaticRows).
Proof.
  intros Hc Hcols Hin.
  assert (Hcc : ColsAtCompileTime (converted dFdT) = Cols).
  { unfold converted, ConvertToDynamicRowsIf.
    destruct (_ >? _); simpl; exact Hcols. }
  rewrite <- Hcc in Hin, Hc.
  rewrite (viable_reverseAD_eq Scalar JacobianMap Self _ Hc) in Hin.
  rewrite Hcc in Hin, Hc.
  assert (Hs : exists r, s = _reverseAD r Cols
                         /\ (r = Dynamic \/ 1 <= r <= MaxVirtualStaticRows)).
  { destruct (Z.eqb_spec (RowsAtCompileTime (converted dFdT)) Dynamic).
    - destruct Hin as [<-|[]]. eauto.
    - destruct (Z.leb_spec 1 (RowsAtCompileTime (converted dFdT)));
        [|destruct Hin].
      destruct (Z.leb_spec (RowsAtCompileTime (converted dFdT))
                  MaxVirtualStaticRows); [|destruct Hin].
      destruct Hin as [<-|[]]. eexists. split; [reflexivity|]. right. lia. }
  split; [|exact Hs].
  destruct Hs as (r & -> & _). intros Heq. inversion Heq. congruence.
Qed.

(** X3. On a Recorder, [CallRecord::reverseAD] of a block with any row
    count from [1] on, or with dynamic rows, returns, and what it does to
    the [JacobianMap] is what [Derived::reverseAD] does with the converted
    block. *)
Theorem Recorder_reverseAD_all_rows (D : Derived Scalar JacobianMap Self)
  (Cols Rows : Z) (cs : list (list Scalar)) (self : Self)
  (jac : JacobianMap) :
  Cols <> Dynamic ->
  1 <= Rows \/ Rows = Dynamic ->
  reverseAD Cols (mkMatrix Rows Cols cs)
    {| recorder := Recorder D Cols self; jacobians := jac |}
  = Some {| recorder := Recorder D Cols self;
            jacobians :=
              Derived_reverseAD D self (converted (mkMatrix Rows Cols cs))
                jac |}.
Proof.
  intros Hc Hr.
  destruct (Z.leb_spec Rows MaxVirtualStaticRows) as [Hle|Hgt].
  - rewrite (converted_small Scalar (mkMatrix Rows Cols cs)) by exact Hle.
    apply Recorder_reverseAD; [exact Hc|].
    destruct Hr as [Hr|Hr]; [left; lia|right; exact Hr].
  - rewrite reverseAD_large_rows by exact Hgt.
    rewrite (converted_large Scalar (mkMatrix Rows Cols cs)) by exact Hgt.
    apply Recorder_reverseAD; [exact Hc|]. right. reflexivity.
Qed.

(** X4. Level [n] of the implementor chain defines the entry points up to
    [n] rows and leaves pure the ones for more rows, [_print] and
    [_startReverseAD], so it is abstract; [CallRecordImplementor] defines
    the rest and can be instantiated. *)
Theorem implementor_chain_pure_virtuals
  (D : Derived Scalar JacobianMap Self) (Cols : Z) (n : nat) :
  (n <= K)%nat ->
  pure_virtual_slots (ReverseADImplementor D n Cols)
  = static_from Cols (S n) (K - n) ++ [_print; _startReverseAD]
  /\ is_abstract (ReverseADImplementor D n Cols) = true
  /\ is_abstract (CallRecordImplementor D Cols) = false.
Proof.
  intros Hn. split; [now apply pure_virtual_slots_ReverseADImplementor|].
  split.
  - destruct (is_abstract (ReverseADImplementor D n Cols)) eqn:Habs;
      [reflexivity|].
    apply is_abstract_pure_virtual_slots in Habs.
    rewrite pure_virtual_slots_ReverseADImplementor in Habs by exact Hn.
    apply app_eq_nil in Habs as [_ Habs]. discriminate Habs.
  - apply is_abstract_pure_virtual_slots. unfold CallRecordImplementor.
    rewrite !pure_virtual_slots_override,
      pure_virtual_slots_ReverseADImplementor by lia.
    rewrite Nat.sub_diag. reflexivity.
Qed.

(** X5. On a Recorder, [print] yields what [Derived::print] writes and
    leaves the world as it is, and [startReverseAD] does to the
    [JacobianMap] what [Derived::startReverseAD] does. *)
Theorem Recorder_print_and_start (D : Derived Scalar JacobianMap Self)
  (Cols : Z) (self : Self) (jac : JacobianMap) (indent : string) :
  let w := {| recorder := Recorder D Cols self; jacobians := jac |} in
  print indent w = Some (w, Derived_print D self indent)
  /\ startReverseAD w
     = Some {| recorder := Recorder D Cols self;
               jacobians := Derived_startReverseAD D self jac |}.
Proof.
  intros w. split.
  - apply Recorder_print.
  - apply Recorder_startReverseAD.
Qed.

(** X6. Whatever the block, the argument handed to [_reverseAD] has a
    static row count of at most [MaxVirtualStaticRows] (dynamic rows
    included), the column count and the coefficients of the block, and
    converting it once more changes nothing. *)
Theorem converted_normal_form (x : CallRecord.Matrix Scalar) :
  RowsAtCompileTime (converted x) <= MaxVirtualStaticRows
  /\ ColsAtCompileTime (converted x) = ColsAtCompileTime x
  /\ coeffs (converted x) = coeffs x
  /\ converted (converted x) = converted x.
Proof.
  destruct (Z.leb_spec (RowsAtCompileTime x) MaxVirtualStaticRows)
    as [Hle|Hgt].
  - rewrite !converted_small; rewrite ?converted_small; auto.
  - rewrite (converted_large Scalar x Hgt).
    rewrite converted_small
      by (unfold Dynamic, MaxVirtualStaticRows; simpl; lia).
    unfold Dynamic, MaxVirtualStaticRows. simpl. repeat split. lia.
Qed.

End DispatchFurther.

Lemma reverseAD_overflow_as_dynamic_witness :
  reverseAD 3 U_five leaf_world
  = reverseAD 3 (mkMatrix Dynamic 3 (coeffs U_five)) leaf_world.
Proof.
  apply (reverseAD_overflow_as_dynamic Z Jacobians N 3 5 (coeffs U_five)
           leaf_world).
  unfold MaxVirtualStaticRows. lia.
Defined.

Lemma reverseAD_never_fully_dynamic_witness :
  _reverseAD Dynamic 3 <> _reverseAD Dynamic Dynamic
  /\ exists r, _reverseAD Dynamic 3 = _reverseAD r 3
               /\ (r = Dynamic \/ (1 <= r <= MaxVirtualStaticRows)%Z).
Proof.
  apply (reverseAD_never_fully_dynamic Z Jacobians N 3 U_five
           (_reverseAD Dynamic 3)).
  - unfold Dynamic. lia.
  - reflexivity.
  - simpl. left. reflexivity.
Defined.

Lemma Recorder_reverseAD_all_rows_witness :
  reverseAD 3 U_five leaf_world
  = Some {| recorder := Recorder Leaf 3 7%N;
            jacobians := [(7%N, coeffs U_five)] |}.
Proof.
  apply (Recorder_reverseAD_all_rows Z Jacobians N Leaf 3 5 (coeffs U_five)
           7%N []).
  - unfold Dynamic. lia.
  - left. lia.
Defined.

Lemma implementor_chain_pure_virtuals_witness :
  pure_virtual_slots (ReverseADImplementor Leaf 2 3)
  = [_reverseAD 3 3; _reverseAD 4 3; _print; _startReverseAD]
  /\ is_abstract (ReverseADImplementor Leaf 2 3) = true
  /\ is_abstract (CallRecordImplementor Leaf 3) = false.
Proof.
  apply (implementor_chain_pure_virtuals Z Jacobians N Leaf 3 2).
  simpl. lia.
Defined.

(* ====================================================================== *)
(** * Part VIII: further properties of NonlinearConstraint.h *)
(* ====================================================================== *)

Section ConstraintFurther.

Context {E : Env}.

(** ** Computations that call no collaborator *)

Lemma quiet_ret {A} (a : A) : quiet (ret a).
Proof. intros tr. reflexivity. Qed.

Lemma quiet_throw {A} (e : Exception) : quiet (@throw A e).
Proof. intros tr. reflexivity. Qed.

Lemma quiet_bind {A B} (m : M A) (k : A -> M B) :
  quiet m -> (forall a, quiet (k a)) -> quiet (bind m k).
Proof.
  intros Hm Hk tr. unfold bind. specialize (Hm tr).
  destruct (m tr) as [[a|e|] tr']; simpl in Hm; subst tr';
    [apply Hk|reflexivity|reflexivity].
Qed.

Lemma quiet_subscript {A} (v : list A) (i : nat) : quiet (subscript v i).
Proof.
  intros tr. unfold subscript. destruct (nth_error v i); reflexivity.
Qed.

Lemma quiet_add_scaled (lambda : Vector) (G : list Matrix) (i : nat)
  (s : Matrix) : quiet (add_scaled lambda G i s).
Proof.
  unfold add_scaled.
  apply quiet_bind; [apply quiet_subscript|intros l].
  apply quiet_bind; [apply quiet_subscript|intros Gi].
  intros tr. unfold add_assign. destruct (same_shape _ _); reflexivity.
Qed.

Lemma quiet_if {A} (b : bool) (m1 m2 : M A) :
  quiet m1 -> quiet m2 -> quiet (if b then m1 else m2).
Proof. now destruct b. Qed.

Lemma quiet_zeros_like_first (G : list Matrix) : quiet (zeros_like_first G).
Proof.
  unfold zeros_like_first.
  apply quiet_bind; [apply quiet_subscript|intros G0].
  apply quiet_bind; [apply quiet_subscript|intros G0']. apply quiet_ret.
Qed.

Lemma quiet_for_from {S} (body : nat -> S -> M S) (count : nat) :
  (forall i s, quiet (body i s)) ->
  forall i s, quiet (for_from i count body s).
Proof.
  intros Hbody. induction count as [|count IH]; intros i s; simpl.
  - apply quiet_ret.
  - apply quiet_bind; [apply Hbody|intros s']. apply IH.
Qed.

Lemma quiet_loop_body2 (lambda : Vector)
  (G : NonlinearEqualityConstraint2.Hessians) (i : nat)
  (s : NonlinearEqualityConstraint2.Sums) :
  quiet (NonlinearEqualityConstraint2.loop_body lambda G i s).
Proof.
  unfold NonlinearEqualityConstraint2.loop_body.
  repeat (apply quiet_bind; [apply quiet_add_scaled|intros ?]).
  apply quiet_ret.
Qed.

Lemma quiet_loop_body3 (lambda : Vector)
  (G : NonlinearEqualityConstraint3.Hessians) (i : nat)
  (s : NonlinearEqualityConstraint3.Sums) :
  quiet (NonlinearEqualityConstraint3.loop_body lambda G i s).
Proof.
  unfold NonlinearEqualityConstraint3.loop_body.
  repeat (apply quiet_bind; [apply quiet_add_scaled|intros ?]).
  apply quiet_ret.
Qed.

Lemma bind_at_Values_missing {B} (x : Values) (j : Key)
  (k : Value -> M B) (tr : list Event) :
  Values_at x j = None ->
  bind (at_Values x j) k tr = (Threw (key_not_found j), tr ++ [ValuesAt j]).
Proof. intros H. unfold at_Values, bind, emit, throw. now rewrite H. Qed.

Lemma bind_at_VectorValues_missing {B} (duals : VectorValues) (j : Key)
  (k : Vector -> M B) (tr : list Event) :
  VectorValues_at duals j = None ->
  bind (at_VectorValues duals j) k tr
  = (Threw (key_not_found j), tr ++ [DualsAt j]).
Proof. intros H. unfold at_VectorValues, bind, emit, throw. now rewrite H. Qed.

(** The part of [multipliedHessian] after [evaluateHessians] calls no
    collaborator. *)
Ltac quiet_tail :=
  match goal with
  | |- snd (?m ?t) = _ =>
      let Hq := fresh "Hq" in
      assert (Hq : quiet m);
      [ match goal with
        | |- quiet (if ?b then _ else _) => destruct b
        end;
        [ apply quiet_throw
        | repeat (apply quiet_bind; [apply quiet_zeros_like_first|intros ?]);
          apply quiet_bind;
          [ apply quiet_for_from; intros ? ?;
            first [ apply quiet_add_scaled | apply quiet_loop_body2
                  | apply quiet_loop_body3 ]
          | intros ?; apply quiet_bind; [|intros ?; apply quiet_ret];
            apply quiet_if; [apply quiet_ret|apply quiet_throw] ] ]
      | rewrite Hq ]
  end.

(** ** Further properties of the equality constraints *)

(** X7. An active one-variable constraint whose value and dual vector are
    found and whose [evaluateHessians] hands back as many blocks as
    [lambda] has components, at least one, each of them [X1Dim x X1Dim],
    returns the factor on its key with the block
    [- lambda[0] * G11[0] - lambda[1] * G11[1] - ...] added onto zeros of
    the shape of [G11[0]], a zero linear term of dimension [X1Dim] and the
    constant [100.0]; it looks up the value, then the dual vector, then
    calls [evaluateHessians] once. *)
Theorem multipliedHessian1_value (Eigen : EigenShapes)
  (c : NonlinearEqualityConstraint1.t)
  (x : Values) (duals : VectorValues) (tr : list Event)
  (x1 : Value) (lambda : Vector) (G0 : Matrix) :
  NonlinearEqualityConstraint1.active c x = true ->
  Values_at x (NonlinearEqualityConstraint1.key c) = Some x1 ->
  VectorValues_at duals (dualKey (NonlinearEqualityConstraint1.base c))
  = Some lambda ->
  dim lambda
  = List.length (NonlinearEqualityConstraint1.evaluateHessians c x1) ->
  nth_error (NonlinearEqualityConstraint1.evaluateHessians c x1) 0
  = Some G0 ->
  all_shaped (NonlinearEqualityConstraint1.X1Dim c)
    (NonlinearEqualityConstraint1.X1Dim c)
    (NonlinearEqualityConstraint1.evaluateHessians c x1) = true ->
  NonlinearEqualityConstraint1.multipliedHessian c x duals tr
  = (Returned
       (Some
          (HessianFactor_1 (NonlinearEqualityConstraint1.key c)
             (weighted_sum lambda
                (NonlinearEqualityConstraint1.evaluateHessians c x1)
                (zeros (Matrix_rows G0) (Matrix_cols G0)))
             (zero (NonlinearEqualityConstraint1.X1Dim c))
             (double_of_Z 100))),
     tr ++ [ValuesAt (NonlinearEqualityConstraint1.key c);
            DualsAt (dualKey (NonlinearEqualityConstraint1.base c));
            EvaluateHessians]).
Proof.
  intros Hact Hx Hl Hdim HG0 Hsh.
  exact (multipliedHessian1_returns Eigen c x duals tr x1 lambda G0
           Hact Hx Hl Hdim HG0 Hsh).
Qed.

(** X8. The same for two variables, with the blocks of [G11], [G12] and
    [G22] of the shapes [X1Dim x X1Dim], [X1Dim x X2Dim] and
    [X2Dim x X2Dim]: the factor on [key1], [key2] has the three blocks
    summed from the lists, each onto zeros of the shape of its first
    block, zero linear terms of dimensions [X1Dim] and [X2Dim] and the
    constant [0.0]. *)
Theorem multipliedHessian2_value (Eigen : EigenShapes)
  (c : NonlinearEqualityConstraint2.t)
  (x : Values) (duals : VectorValues) (tr : list Event)
  (x1 x2 : Value) (lambda : Vector) (A11 A12 A22 : Matrix) :
  NonlinearEqualityConstraint2.active c x = true ->
  Values_at x (NonlinearEqualityConstraint2.key1 c) = Some x1 ->
  Values_at x (NonlinearEqualityConstraint2.key2 c) = Some x2 ->
  VectorValues_at duals (dualKey (NonlinearEqualityConstraint2.base c))
  = Some lambda ->
  let G := NonlinearEqualityConstraint2.evaluateHessians c x1 x2 in
  dim lambda = List.length (NonlinearEqualityConstraint2.G11 G) ->
  dim lambda = List.length (NonlinearEqualityConstraint2.G12 G) ->
  dim lambda = List.length (NonlinearEqualityConstraint2.G22 G) ->
  nth_error (NonlinearEqualityConstraint2.G11 G) 0 = Some A11 ->
  nth_error (NonlinearEqualityConstraint2.G12 G) 0 = Some A12 ->
  nth_error (NonlinearEqualityConstraint2.G22 G) 0 = Some A22 ->
  all_shaped (NonlinearEqualityConstraint2.X1Dim c)
    (NonlinearEqualityConstraint2.X1Dim c)
    (NonlinearEqualityConstraint2.G11 G) = true ->
  all_shaped (NonlinearEqualityConstraint2.X1Dim c)
    (NonlinearEqualityConstraint2.X2Dim c)
    (NonlinearEqualityConstraint2.G12 G) = true ->
  all_shaped (NonlinearEqualityConstraint2.X2Dim c)
    (NonlinearEqualityConstraint2.X2Dim c)
    (NonlinearEqualityConstraint2.G22 G) = true ->
  NonlinearEqualityConstraint2.multipliedHessian c x duals tr
  = (Returned
       (Some
          (HessianFactor_2
             (NonlinearEqualityConstraint2.key1 c)
             (NonlinearEqualityConstraint2.key2 c)
             (weighted_sum lambda (NonlinearEqualityConstraint2.G11 G)
                (zeros (Matrix_rows A11) (Matrix_cols A11)))
             (weighted_sum lambda (NonlinearEqualityConstraint2.G12 G)
                (zeros (Matrix_rows A12) (Matrix_cols A12)))
             (zero (NonlinearEqualityConstraint2.X1Dim c))
             (weighted_sum lambda (NonlinearEqualityConstraint2.G22 G)
                (zeros (Matrix_rows A22) (Matrix_cols A22)))
             (zero (NonlinearEqualityConstraint2.X2Dim c))
             (double_of_Z 0))),
     tr ++ [ValuesAt (NonlinearEqualityConstraint2.key1 c);
            ValuesAt (NonlinearEqualityConstraint2.key2 c);
            DualsAt (dualKey (NonlinearEqualityConstraint2.base c));
            EvaluateHessians]).
Proof.
  intros Hact Hx1 Hx2 Hl G H11 H12 H22 HA11 HA12 HA22 S11 S12 S22.
  exact (multipliedHessian2_returns Eigen c x duals tr x1 x2 lambda
           A11 A12 A22 Hact Hx1 Hx2 Hl H11 H12 H22 HA11 HA12 HA22
           S11 S12 S22).
Qed.

(** X9. The same for three variables, with every block of [Gab] of the
    shape [XaDim x XbDim], for what the factor holds besides its keys: the
    six blocks summed from [G11] ... [G33], zero linear terms of
    dimensions [X1Dim], [X2Dim], [X3Dim], the constant [0.0]. *)
Theorem multipliedHessian3_value (Eigen : EigenShapes)
  (c : NonlinearEqualityConstraint3.t)
  (x : Values) (duals : VectorValues) (tr : list Event)
  (x1 x2 x3 : Value) (lambda : Vector)
  (A11 A12 A13 A22 A23 A33 : Matrix) :
  NonlinearEqualityConstraint3.active c x = true ->
  Values_at x (NonlinearEqualityConstraint3.key1 c) = Some x1 ->
  Values_at x (NonlinearEqualityConstraint3.key2 c) = Some x2 ->
  Values_at x (NonlinearEqualityConstraint3.key3 c) = Some x3 ->
  VectorValues_at duals (dualKey (NonlinearEqualityConstraint3.base c))
  = Some lambda ->
  let G := NonlinearEqualityConstraint3.evaluateHessians c x1 x2 x3 in
  dim lambda = List.length (NonlinearEqualityConstraint3.G11 G) ->
  dim lambda = List.length (NonlinearEqualityConstraint3.G12 G) ->
  dim lambda = List.length (NonlinearEqualityConstraint3.G13 G) ->
  dim lambda = List.length (NonlinearEqualityConstraint3.G22 G) ->
  dim lambda = List.length (NonlinearEqualityConstraint3.G23 G) ->
  dim lambda = List.length (NonlinearEqualityConstraint3.G33 G) ->
  nth_error (NonlinearEqualityConstraint3.G11 G) 0 = Some A11 ->
  nth_error (NonlinearEqualityConstraint3.G12 G) 0 = Some A12 ->
  nth_error (NonlinearEqualityConstraint3.G13 G) 0 = Some A13 ->
  nth_error (NonlinearEqualityConstraint3.G22 G) 0 = Some A22 ->
  nth_error (NonlinearEqualityConstraint3.G23 G) 0 = Some A23 ->
  nth_error (NonlinearEqualityConstraint3.G33 G) 0 = Some A33 ->
  all_shaped (NonlinearEqualityConstraint3.X1Dim c) (NonlinearEqualityConstraint3.X1Dim c)
    (NonlinearEqualityConstraint3.G11 G) = true ->
  all_shaped (NonlinearEqualityConstraint3.X1Dim c) (NonlinearEqualityConstraint3.X2Dim c)
    (NonlinearEqualityConstraint3.G12 G) = true ->
  all_shaped (NonlinearEqualityConstraint3.X1Dim c) (NonlinearEqualityConstraint3.X3Dim c)
    (NonlinearEqualityConstraint3.G13 G) = true ->
  all_shaped (NonlinearEqualityConstraint3.X2Dim c) (NonlinearEqualityConstraint3.X2Dim c)
    (NonlinearEqualityConstraint3.G22 G) = true ->
  all_shaped (NonlinearEqualityConstraint3.X2Dim c) (NonlinearEqualityConstraint3.X3Dim c)
    (NonlinearEqualityConstraint3.G23 G) = true ->
  all_shaped (NonlinearEqualityConstraint3.X3Dim c) (NonlinearEqualityConstraint3.X3Dim c)
    (NonlinearEqualityConstraint3.G33 G) = true ->
  exists hf,
    NonlinearEqualityConstraint3.multipliedHessian c x duals tr
    = (Returned (Some hf),
       tr ++ [ValuesAt (NonlinearEqualityConstraint3.key1 c);
              ValuesAt (NonlinearEqualityConstraint3.key2 c);
              ValuesAt (NonlinearEqualityConstraint3.key3 c);
              DualsAt (dualKey (NonlinearEqualityConstraint3.base c));
              EvaluateHessians])
    /\ G_blocks hf
       = [weighted_sum lambda (NonlinearEqualityConstraint3.G11 G)
            (zeros (Matrix_rows A11) (Matrix_cols A11));
          weighted_sum lambda (NonlinearEqualityConstraint3.G12 G)
            (zeros (Matrix_rows A12) (Matrix_cols A12));
          weighted_sum lambda (NonlinearEqualityConstraint3.G13 G)
            (zeros (Matrix_rows A13) (Matrix_cols A13));
          weighted_sum lambda (NonlinearEqualityConstraint3.G22 G)
            (zeros (Matrix_rows A22) (Matrix_cols A22));
          weighted_sum lambda (NonlinearEqualityConstraint3.G23 G)
            (zeros (Matrix_rows A23) (Matrix_cols A23));
          weighted_sum lambda (NonlinearEqualityConstraint3.G33 G)
            (zeros (Matrix_rows A33) (Matrix_cols A33))]
    /\ g_terms hf
       = [zero (NonlinearEqualityConstraint3.X1Dim c);
          zero (NonlinearEqualityConstraint3.X2Dim c);
          zero (NonlinearEqualityConstraint3.X3Dim c)]
    /\ f_term hf = double_of_Z 0.
Proof.
  intros Hact Hx1 Hx2 Hx3 Hl G H11 H12 H13 H22 H23 H33
    HA11 HA12 HA13 HA22 HA23 HA33 S11 S12 S13 S22 S23 S33.
  rewrite (multipliedHessian3_returns Eigen c x duals tr x1 x2 x3 lambda
             A11 A12 A13 A22 A23 A33 Hact Hx1 Hx2 Hx3 Hl
             H11 H12 H13 H22 H23 H33 HA11 HA12 HA13 HA22 HA23 HA33
             S11 S12 S13 S22 S23 S33).
  eexists. split; [reflexivity|]. repeat split.
Qed.

(** X10. Whatever comes of it, a call of [multipliedHessian] on an active
    constraint that finds its values and its dual vector looks the values
    up in the order of the keys, then the dual vector, then calls
    [evaluateHessians] once, and calls nothing after that: the dimension
    check comes after the Hessians have been evaluated. *)
Theorem multipliedHessian_calls :
  (forall (c : NonlinearEqualityConstraint1.t) (x : Values)
          (duals : VectorValues) (tr : list Event) (x1 : Value)
          (lambda : Vector),
     NonlinearEqualityConstraint1.active c x = true ->
     Values_at x (NonlinearEqualityConstraint1.key c) = Some x1 ->
     VectorValues_at duals (dualKey (NonlinearEqualityConstraint1.base c))
     = Some lambda ->
     snd (NonlinearEqualityConstraint1.multipliedHessian c x duals tr)
     = tr ++ [ValuesAt (NonlinearEqualityConstraint1.key c);
              DualsAt (dualKey (NonlinearEqualityConstraint1.base c));
              EvaluateHessians])
  /\ (forall (c : NonlinearEqualityConstraint2.t) (x : Values)
          (duals : VectorValues) (tr : list Event) (x1 x2 : Value)
          (lambda : Vector),
     NonlinearEqualityConstraint2.active c x = true ->
     Values_at x (NonlinearEqualityConstraint2.key1 c) = Some x1 ->
     Values_at x (NonlinearEqualityConstraint2.key2 c) = Some x2 ->
     VectorValues_at duals (dualKey (NonlinearEqualityConstraint2.base c))
     = Some lambda ->
     snd (NonlinearEqualityConstraint2.multipliedHessian c x duals tr)
     = tr ++ [ValuesAt (NonlinearEqualityConstraint2.key1 c);
              ValuesAt (NonlinearEqualityConstraint2.key2 c);
              DualsAt (dualKey (NonlinearEqualityConstraint2.base c));
              EvaluateHessians])
  /\ (forall (c : NonlinearEqualityConstraint3.t) (x : Values)
          (duals : VectorValues) (tr : list Event) (x1 x2 x3 : Value)
          (lambda : Vector),
     NonlinearEqualityConstraint3.active c x = true ->
     Values_at x (NonlinearEqualityConstraint3.key1 c) = Some x1 ->
     Values_at x (NonlinearEqualityConstraint3.key2 c) = Some x2 ->
     Values_at x (NonlinearEqualityConstraint3.key3 c) = Some x3 ->
     VectorValues_at duals (dualKey (NonlinearEqualityConstraint3.base c))
     = Some lambda ->
     snd (NonlinearEqualityConstraint3.multipliedHessian c x duals tr)
     = tr ++ [ValuesAt (NonlinearEqualityConstraint3.key1 c);
              ValuesAt (NonlinearEqualityConstraint3.key2 c);
              ValuesAt (NonlinearEqualityConstraint3.key3 c);
              DualsAt (dualKey (NonlinearEqualityConstraint3.base c));
              EvaluateHessians]).
Proof.
  split; [|split].
  - intros c x duals tr x1 lambda Hact Hx Hl.
    unfold NonlinearEqualityConstraint1.multipliedHessian.
    rewrite Hact. cbn [negb].
    rewrite (bind_at_Values _ _ _ _ _ Hx),
      (bind_at_VectorValues _ _ _ _ _ Hl).
    unfold NonlinearEqualityConstraint1.call_evaluateHessians.
    rewrite bind_emit_ret. quiet_tail. apply app_three.
  - intros c x duals tr x1 x2 lambda Hact Hx1 Hx2 Hl.
    unfold NonlinearEqualityConstraint2.multipliedHessian.
    rewrite Hact. cbn [negb].
    rewrite (bind_at_Values _ _ _ _ _ Hx1), (bind_at_Values _ _ _ _ _ Hx2),
      (bind_at_VectorValues _ _ _ _ _ Hl).
    unfold NonlinearEqualityConstraint2.call_evaluateHessians.
    rewrite bind_emit_ret. quiet_tail. apply app_four.
  - intros c x duals tr x1 x2 x3 lambda Hact Hx1 Hx2 Hx3 Hl.
    unfold NonlinearEqualityConstraint3.multipliedHessian.
    rewrite Hact. cbn [negb].
    rewrite (bind_at_Values _ _ _ _ _ Hx1), (bind_at_Values _ _ _ _ _ Hx2),
      (bind_at_Values _ _ _ _ _ Hx3), (bind_at_VectorValues _ _ _ _ _ Hl).
    unfold NonlinearEqualityConstraint3.call_evaluateHessians.
    rewrite bind_emit_ret. quiet_tail. apply app_five.
Qed.

(** X11. When [x.at] raises for one of the variables of an active
    constraint, [multipliedHessian] leaves through that exception: the
    variables before it have been looked up, the dual vector has not been
    read and [evaluateHessians] has not been called. *)
Theorem multipliedHessian_missing_value :
  (forall (c : NonlinearEqualityConstraint1.t) (x : Values)
          (duals : VectorValues) (tr : list Event),
     NonlinearEqualityConstraint1.active c x = true ->
     Values_at x (NonlinearEqualityConstraint1.key c) = None ->
     NonlinearEqualityConstraint1.multipliedHessian c x duals tr
     = (Threw (key_not_found (NonlinearEqualityConstraint1.key c)),
        tr ++ [ValuesAt (NonlinearEqualityConstraint1.key c)]))
  /\ (forall (c : NonlinearEqualityConstraint2.t) (x : Values)
          (duals : VectorValues) (tr : list Event),
     NonlinearEqualityConstraint2.active c x = true ->
     (Values_at x (NonlinearEqualityConstraint2.key1 c) = None ->
      NonlinearEqualityConstraint2.multipliedHessian c x duals tr
      = (Threw (key_not_found (NonlinearEqualityConstraint2.key1 c)),
         tr ++ [ValuesAt (NonlinearEqualityConstraint2.key1 c)]))
     /\ (forall x1,
         Values_at x (NonlinearEqualityConstraint2.key1 c) = Some x1 ->
         Values_at x (NonlinearEqualityConstraint2.key2 c) = None ->
         NonlinearEqualityConstraint2.multipliedHessian c x duals tr
         = (Threw (key_not_found (NonlinearEqualityConstraint2.key2 c)),
            tr ++ [ValuesAt (NonlinearEqualityConstraint2.key1 c);
                   ValuesAt (NonlinearEqualityConstraint2.key2 c)])))
  /\ (forall (c : NonlinearEqualityConstraint3.t) (x : Values)
          (duals : VectorValues) (tr : list Event),
     NonlinearEqualityConstraint3.active c x = true ->
     (Values_at x (NonlinearEqualityConstraint3.key1 c) = None ->
      NonlinearEqualityConstraint3.multipliedHessian c x duals tr
      = (Threw (key_not_found (NonlinearEqualityConstraint3.key1 c)),
         tr ++ [ValuesAt (NonlinearEqualityConstraint3.key1 c)]))
     /\ (forall x1,
         Values_at x (NonlinearEqualityConstraint3.key1 c) = Some x1 ->
         Values_at x (NonlinearEqualityConstraint3.key2 c) = None ->
         NonlinearEqualityConstraint3.multipliedHessian c x duals tr
         = (Threw (key_not_found (NonlinearEqualityConstraint3.key2 c)),
            tr ++ [ValuesAt (NonlinearEqualityConstraint3.key1 c);
                   ValuesAt (NonlinearEqualityConstraint3.key2 c)]))
     /\ (forall x1 x2,
         Values_at x (NonlinearEqualityConstraint3.key1 c) = Some x1 ->
         Values_at x (NonlinearEqualityConstraint3.key2 c) = Some x2 ->
         Values_at x (NonlinearEqualityConstraint3.key3 c) = None ->
         NonlinearEqualityConstraint3.multipliedHessian c x duals tr
         = (Threw (key_not_found (NonlinearEqualityConstraint3.key3 c)),
            tr ++ [ValuesAt (NonlinearEqualityConstraint3.key1 c);
                   ValuesAt (NonlinearEqualityConstraint3.key2 c);
                   ValuesAt (NonlinearEqualityConstraint3.key3 c)]))).
Proof.
  split; [|split].
  - intros c x duals tr Hact Hx.
    unfold NonlinearEqualityConstraint1.multipliedHessian.
    rewrite Hact. cbn [negb]. now rewrite (bind_at_Values_missing _ _ _ _ Hx).
  - intros c x duals tr Hact.
    unfold NonlinearEqualityConstraint2.multipliedHessian.
    rewrite Hact. cbn [negb]. split.
    + intros Hx1. now rewrite (bind_at_Values_missing _ _ _ _ Hx1).
    + intros x1 Hx1 Hx2. rewrite (bind_at_Values _ _ _ _ _ Hx1).
      rewrite (bind_at_Values_missing _ _ _ _ Hx2).
      now rewrite <- app_assoc.
  - intros c x duals tr Hact.
    unfold NonlinearEqualityConstraint3.multipliedHessian.
    rewrite Hact. cbn [negb]. split; [|split].
    + intros Hx1. now rewrite (bind_at_Values_missing _ _ _ _ Hx1).
    + intros x1 Hx1 Hx2. rewrite (bind_at_Values _ _ _ _ _ Hx1).
      rewrite (bind_at_Values_missing _ _ _ _ Hx2).
      now rewrite <- app_assoc.
    + intros x1 x2 Hx1 Hx2 Hx3.
      rewrite (bind_at_Values _ _ _ _ _ Hx1), (bind_at_Values _ _ _ _ _ Hx2).
      rewrite (bind_at_Values_missing _ _ _ _ Hx3).
      now rewrite app_three.
Qed.

(** X12. When the values of an active constraint are found and
    [duals.at(dualKey())] raises, [multipliedHessian] leaves through that
    exception and [evaluateHessians] has not been called. *)
Theorem multipliedHessian_missing_dual :
  (forall (c : NonlinearEqualityConstraint1.t) (x : Values)
          (duals : VectorValues) (tr : list Event) (x1 : Value),
     NonlinearEqualityConstraint1.active c x = true ->
     Values_at x (NonlinearEqualityConstraint1.key c) = Some x1 ->
     VectorValues_at duals (dualKey (NonlinearEqualityConstraint1.base c))
     = None ->
     NonlinearEqualityConstraint1.multipliedHessian c x duals tr
     = (Threw (key_not_found
                 (dualKey (NonlinearEqualityConstraint1.base c))),
        tr ++ [ValuesAt (NonlinearEqualityConstraint1.key c);
               DualsAt (dualKey (NonlinearEqualityConstraint1.base c))]))
  /\ (forall (c : NonlinearEqualityConstraint2.t) (x : Values)
          (duals : VectorValues) (tr : list Event) (x1 x2 : Value),
     NonlinearEqualityConstraint2.active c x = true ->
     Values_at x (NonlinearEqualityConstraint2.key1 c) = Some x1 ->
     Values_at x (NonlinearEqualityConstraint2.key2 c) = Some x2 ->
     VectorValues_at duals (dualKey (NonlinearEqualityConstraint2.base c))
     = None ->
     NonlinearEqualityConstraint2.multipliedHessian c x duals tr
     = (Threw (key_not_found
                 (dualKey (NonlinearEqualityConstraint2.base c))),
        tr ++ [ValuesAt (NonlinearEqualityConstraint2.key1 c);
               ValuesAt (NonlinearEqualityConstraint2.key2 c);
               DualsAt (dualKey (NonlinearEqualityConstraint2.base c))]))
  /\ (forall (c : NonlinearEqualityConstraint3.t) (x : Values)
          (duals : VectorValues) (tr : list Event) (x1 x2 x3 : Value),
     NonlinearEqualityConstraint3.active c x = true ->
     Values_at x (NonlinearEqualityConstraint3.key1 c) = Some x1 ->
     Values_at x (NonlinearEqualityConstraint3.key2 c) = Some x2 ->
     Values_at x (NonlinearEqualityConstraint3.key3 c) = Some x3 ->
     VectorValues_at duals (dualKey (NonlinearEqualityConstraint3.base c))
     = None ->
     NonlinearEqualityConstraint3.multipliedHessian c x duals tr
     = (Threw (key_not_found
                 (dualKey (NonlinearEqualityConstraint3.base c))),
        tr ++ [ValuesAt (NonlinearEqualityConstraint3.key1 c);
               ValuesAt (NonlinearEqualityConstraint3.key2 c);
               ValuesAt (NonlinearEqualityConstraint3.key3 c);
               DualsAt (dualKey (NonlinearEqualityConstraint3.base c))])).
Proof.
  split; [|split].
  - intros c x duals tr x1 Hact Hx Hl.
    unfold NonlinearEqualityConstraint1.multipliedHessian.
    rewrite Hact. cbn [negb]. rewrite (bind_at_Values _ _ _ _ _ Hx).
    rewrite (bind_at_VectorValues_missing _ _ _ _ Hl).
    now rewrite <- app_assoc.
  - intros c x duals tr x1 x2 Hact Hx1 Hx2 Hl.
    unfold NonlinearEqualityConstraint2.multipliedHessian.
    rewrite Hact. cbn [negb].
    rewrite (bind_at_Values _ _ _ _ _ Hx1), (bind_at_Values _ _ _ _ _ Hx2).
    rewrite (bind_at_VectorValues_missing _ _ _ _ Hl).
    now rewrite app_three.
  - intros c x duals tr x1 x2 x3 Hact Hx1 Hx2 Hx3 Hl.
    unfold NonlinearEqualityConstraint3.multipliedHessian.
    rewrite Hact. cbn [negb].
    rewrite (bind_at_Values _ _ _ _ _ Hx1), (bind_at_Values _ _ _ _ _ Hx2),
      (bind_at_Values _ _ _ _ _ Hx3).
    rewrite (bind_at_VectorValues_missing _ _ _ _ Hl).
    now rewrite app_four.
Qed.

Ltac pick_disjunct_ne :=
  match goal with
  | H : _ <> 0%nat |- _ =>
      first [ left; intros E0; apply H; now rewrite <- E0
            | intros E0; apply H; now rewrite <- E0
            | right; pick_disjunct_ne ]
  end.

(** X13. With a dual vector that has no component, an active constraint
    that finds its values never returns a factor: when every block list is
    empty the check passes and the first block of an empty vector is read,
    and when one of them is not empty the check throws. *)
Theorem multipliedHessian_no_component :
  (forall (c : NonlinearEqualityConstraint1.t) (x : Values)
          (duals : VectorValues) (tr : list Event) (x1 : Value)
          (lambda : Vector),
     NonlinearEqualityConstraint1.active c x = true ->
     Values_at x (NonlinearEqualityConstraint1.key c) = Some x1 ->
     VectorValues_at duals (dualKey (NonlinearEqualityConstraint1.base c))
     = Some lambda ->
     dim lambda = 0%nat ->
     let G := NonlinearEqualityConstraint1.evaluateHessians c x1 in
     let r :=
       fst (NonlinearEqualityConstraint1.multipliedHessian c x duals tr) in
     (List.length G = 0%nat ->
      r = Undefined)
     /\ (List.length G <> 0%nat ->
         r = Threw (runtime_error dimension_error)))
  /\ (forall (c : NonlinearEqualityConstraint2.t) (x : Values)
          (duals : VectorValues) (tr : list Event) (x1 x2 : Value)
          (lambda : Vector),
     NonlinearEqualityConstraint2.active c x = true ->
     Values_at x (NonlinearEqualityConstraint2.key1 c) = Some x1 ->
     Values_at x (NonlinearEqualityConstraint2.key2 c) = Some x2 ->
     VectorValues_at duals (dualKey (NonlinearEqualityConstraint2.base c))
     = Some lambda ->
     dim lambda = 0%nat ->
     let G := NonlinearEqualityConstraint2.evaluateHessians c x1 x2 in
     let r :=
       fst (NonlinearEqualityConstraint2.multipliedHessian c x duals tr) in
     (List.length (NonlinearEqualityConstraint2.G11 G) = 0%nat ->
      List.length (NonlinearEqualityConstraint2.G12 G) = 0%nat ->
      List.length (NonlinearEqualityConstraint2.G22 G) = 0%nat ->
      r = Undefined)
     /\ (List.length (NonlinearEqualityConstraint2.G11 G) <> 0%nat
         \/ List.length (NonlinearEqualityConstraint2.G12 G) <> 0%nat
         \/ List.length (NonlinearEqualityConstraint2.G22 G) <> 0%nat ->
         r = Threw (runtime_error dimension_error)))
  /\ (forall (c : NonlinearEqualityConstraint3.t) (x : Values)
          (duals : VectorValues) (tr : list Event) (x1 x2 x3 : Value)
          (lambda : Vector),
     NonlinearEqualityConstraint3.active c x = true ->
     Values_at x (NonlinearEqualityConstraint3.key1 c) = Some x1 ->
     Values_at x (NonlinearEqualityConstraint3.key2 c) = Some x2 ->
     Values_at x (NonlinearEqualityConstraint3.key3 c) = Some x3 ->
     VectorValues_at duals (dualKey (NonlinearEqualityConstraint3.base c))
     = Some lambda ->
     dim lambda = 0%nat ->
     let G := NonlinearEqualityConstraint3.evaluateHessians c x1 x2 x3 in
     let r :=
       fst (NonlinearEqualityConstraint3.multipliedHessian c x duals tr) in
     (List.length (NonlinearEqualityConstraint3.G11 G) = 0%nat ->
      List.length (NonlinearEqualityConstraint3.G12 G) = 0%nat ->
      List.length (NonlinearEqualityConstraint3.G13 G) = 0%nat ->
      List.length (NonlinearEqualityConstraint3.G22 G) = 0%nat ->
      List.length (NonlinearEqualityConstraint3.G23 G) = 0%nat ->
      List.length (NonlinearEqualityConstraint3.G33 G) = 0%nat ->
      r = Undefined)
     /\ (List.length (NonlinearEqualityConstraint3.G11 G) <> 0%nat
         \/ List.length (NonlinearEqualityConstraint3.G12 G) <> 0%nat
         \/ List.length (NonlinearEqualityConstraint3.G13 G) <> 0%nat
         \/ List.length (NonlinearEqualityConstraint3.G22 G) <> 0%nat
         \/ List.length (NonlinearEqualityConstraint3.G23 G) <> 0%nat
         \/ List.length (NonlinearEqualityConstraint3.G33 G) <> 0%nat ->
         r = Threw (runtime_error dimension_error))).
Proof.
  split; [|split].
  - intros c x duals tr x1 lambda Hact Hx1 Hl Hdim G r. split.
    + intros E11. subst r.
      unfold NonlinearEqualityConstraint1.multipliedHessian.
      rewrite Hact. cbn [negb].
      rewrite (bind_at_Values _ _ _ _ _ Hx1),
        (bind_at_VectorValues _ _ _ _ _ Hl).
      unfold NonlinearEqualityConstraint1.call_evaluateHessians.
      rewrite bind_emit_ret. fold G.
      rewrite (eqb_match (dim lambda) (List.length G)).
      { cbn [orb]. unfold zeros_like_first, bind.
        rewrite subscript_outside by lia. reflexivity. }
      all: lia.
    + intros Hne.
      apply (multipliedHessian1_throws c x duals tr x1 lambda
               Hact Hx1 Hl).
      fold G. lia.
  - intros c x duals tr x1 x2 lambda Hact Hx1 Hx2 Hl Hdim G r. split.
    + intros E11 E12 E22. subst r.
      unfold NonlinearEqualityConstraint2.multipliedHessian.
      rewrite Hact. cbn [negb].
      rewrite (bind_at_Values _ _ _ _ _ Hx1), (bind_at_Values _ _ _ _ _ Hx2),
        (bind_at_VectorValues _ _ _ _ _ Hl).
      unfold NonlinearEqualityConstraint2.call_evaluateHessians.
      rewrite bind_emit_ret. fold G.
      rewrite (eqb_match (dim lambda) (List.length (NonlinearEqualityConstraint2.G11 G))), (eqb_match (dim lambda) (List.length (NonlinearEqualityConstraint2.G12 G))), (eqb_match (dim lambda) (List.length (NonlinearEqualityConstraint2.G22 G))).
      { cbn [orb]. unfold zeros_like_first, bind.
        rewrite subscript_outside by lia. reflexivity. }
      all: lia.
    + intros Hne.
      apply (multipliedHessian2_throws c x duals tr x1 x2 lambda
               Hact Hx1 Hx2 Hl).
      fold G. rewrite Hdim.
      destruct Hne as [H|[H|H]];
        pick_disjunct_ne.
  - intros c x duals tr x1 x2 x3 lambda Hact Hx1 Hx2 Hx3 Hl Hdim G r. split.
    + intros E11 E12 E13 E22 E23 E33. subst r.
      unfold NonlinearEqualityConstraint3.multipliedHessian.
      rewrite Hact. cbn [negb].
      rewrite (bind_at_Values _ _ _ _ _ Hx1), (bind_at_Values _ _ _ _ _ Hx2), (bind_at_Values _ _ _ _ _ Hx3),
        (bind_at_VectorValues _ _ _ _ _ Hl).
      unfold NonlinearEqualityConstraint3.call_evaluateHessians.
      rewrite bind_emit_ret. fold G.
      rewrite (eqb_match (dim lambda) (List.length (NonlinearEqualityConstraint3.G11 G))), (eqb_match (dim lambda) (List.length (NonlinearEqualityConstraint3.G12 G))), (eqb_match (dim lambda) (List.length (NonlinearEqualityConstraint3.G13 G))), (eqb_match (dim lambda) (List.length (NonlinearEqualityConstraint3.G22 G))), (eqb_match (dim lambda) (List.length (NonlinearEqualityConstraint3.G23 G))), (eqb_match (dim lambda) (List.length (NonlinearEqualityConstraint3.G33 G))).
      { cbn [orb]. unfold zeros_like_first, bind.
        rewrite subscript_outside by lia. reflexivity. }
      all: lia.
    + intros Hne.
      apply (multipliedHessian3_throws c x duals tr x1 x2 x3 lambda
               Hact Hx1 Hx2 Hx3 Hl).
      fold G. rewrite Hdim.
      destruct Hne as [H|[H|[H|[H|[H|H]]]]];
        pick_disjunct_ne.
Qed.

End ConstraintFurther.

Section DefaultHessians.

Context {E : Env} {B : BlockEnv E}.

Lemma iterate_from_push {A} (f : nat -> A) (count : nat) :
  forall (i : nat) (G : list A),
    iterate_from i count (fun j G0 => G0 ++ [f j]) G
    = G ++ map f (seq i count).
Proof.
  induction count as [|count IH]; intros i G; simpl.
  - now rewrite app_nil_r.
  - rewrite IH, <- app_assoc. reflexivity.
Qed.

Lemma evaluateHessians2_default_from (X1Dim X2Dim : nat)
  (G11all G12all G22all : Matrix) (count : nat) :
  forall (i : nat) (G : NonlinearEqualityConstraint2.Hessians),
    iterate_from i count
      (fun j G0 =>
         NonlinearEqualityConstraint2.mkHessians
           (NonlinearEqualityConstraint2.G11 G0
            ++ [Matrix_block G11all (j * X1Dim) 0 X1Dim X1Dim])
           (NonlinearEqualityConstraint2.G12 G0
            ++ [Matrix_block G12all (j * X1Dim) 0 X1Dim X2Dim])
           (NonlinearEqualityConstraint2.G22 G0
            ++ [Matrix_block G22all (j * X2Dim) 0 X2Dim X2Dim])) G
    = NonlinearEqualityConstraint2.mkHessians
        (NonlinearEqualityConstraint2.G11 G
         ++ map (fun j => Matrix_block G11all (j * X1Dim) 0 X1Dim X1Dim)
              (seq i count))
        (NonlinearEqualityConstraint2.G12 G
         ++ map (fun j => Matrix_block G12all (j * X1Dim) 0 X1Dim X2Dim)
              (seq i count))
        (NonlinearEqualityConstraint2.G22 G
         ++ map (fun j => Matrix_block G22all (j * X2Dim) 0 X2Dim X2Dim)
              (seq i count)).
Proof.
  induction count as [|count IH]; intros i G; simpl.
  - rewrite !app_nil_r. now destruct G.
  - rewrite IH. simpl. now rewrite <- !app_assoc.
Qed.

Lemma evaluateHessians3_default_from (X1Dim X2Dim X3Dim : nat)
  (G11all G12all G13all G22all G23all G33all : Matrix) (count : nat) :
  forall (i : nat) (G : NonlinearEqualityConstraint3.Hessians),
    iterate_from i count
      (fun j G0 =>
         NonlinearEqualityConstraint3.mkHessians
           (NonlinearEqualityConstraint3.G11 G0
            ++ [Matrix_block G11all (j * X1Dim) 0 X1Dim X1Dim])
           (NonlinearEqualityConstraint3.G12 G0
            ++ [Matrix_block G12all (j * X1Dim) 0 X1Dim X2Dim])
           (NonlinearEqualityConstraint3.G13 G0
            ++ [Matrix_block G13all (j * X1Dim) 0 X1Dim X3Dim])
           (NonlinearEqualityConstraint3.G22 G0
            ++ [Matrix_block G22all (j * X2Dim) 0 X2Dim X2Dim])
           (NonlinearEqualityConstraint3.G23 G0
            ++ [Matrix_block G23all (j * X2Dim) 0 X2Dim X3Dim])
           (NonlinearEqualityConstraint3.G33 G0
            ++ [Matrix_block G33all (j * X3Dim) 0 X3Dim X3Dim])) G
    = NonlinearEqualityConstraint3.mkHessians
        (NonlinearEqualityConstraint3.G11 G
         ++ map (fun j => Matrix_block G11all (j * X1Dim) 0 X1Dim X1Dim)
              (seq i count))
        (NonlinearEqualityConstraint3.G12 G
         ++ map (fun j => Matrix_block G12all (j * X1Dim) 0 X1Dim X2Dim)
              (seq i count))
        (NonlinearEqualityConstraint3.G13 G
         ++ map (fun j => Matrix_block G13all (j * X1Dim) 0 X1Dim X3Dim)
              (seq i count))
        (NonlinearEqualityConstraint3.G22 G
         ++ map (fun j => Matrix_block G22all (j * X2Dim) 0 X2Dim X2Dim)
              (seq i count))
        (NonlinearEqualityConstraint3.G23 G
         ++ map (fun j => Matrix_block G23all (j * X2Dim) 0 X2Dim X3Dim)
              (seq i count))
        (NonlinearEqualityConstraint3.G33 G
         ++ map (fun j => Matrix_block G33all (j * X3Dim) 0 X3Dim X3Dim)
              (seq i count)).
Proof.
  induction count as [|count IH]; intros i G; simpl.
  - rewrite !app_nil_r. now destruct G.
  - rewrite IH. simpl. now rewrite <- !app_assoc.
Qed.

(** X14. The [evaluateHessians] of the three classes appends to each
    vector it is given one block per component of the noise model, in
    order: block [i] of [G11] is the [X1Dim x X1Dim] block of [G11all] that
    starts at row [i * X1Dim], and likewise for the other lists with the
    row offset and the shape of their variables. *)
Theorem evaluateHessians_default_blocks (n X1Dim X2Dim X3Dim : nat)
  (G11all G12all G13all G22all G23all G33all : Matrix) :
  (forall G11 : list Matrix,
     NonlinearEqualityConstraint1.evaluateHessians_default n X1Dim G11all G11
     = G11 ++ map (fun i => Matrix_block G11all (i * X1Dim) 0 X1Dim X1Dim)
                (seq 0 n))
  /\ (forall G : NonlinearEqualityConstraint2.Hessians,
     NonlinearEqualityConstraint2.evaluateHessians_default n X1Dim X2Dim
       G11all G12all G22all G
     = NonlinearEqualityConstraint2.mkHessians
         (NonlinearEqualityConstraint2.G11 G
          ++ map (fun i => Matrix_block G11all (i * X1Dim) 0 X1Dim X1Dim)
               (seq 0 n))
         (NonlinearEqualityConstraint2.G12 G
          ++ map (fun i => Matrix_block G12all (i * X1Dim) 0 X1Dim X2Dim)
               (seq 0 n))
         (NonlinearEqualityConstraint2.G22 G
          ++ map (fun i => Matrix_block G22all (i * X2Dim) 0 X2Dim X2Dim)
               (seq 0 n)))
  /\ (forall G : NonlinearEqualityConstraint3.Hessians,
     NonlinearEqualityConstraint3.evaluateHessians_default n
       X1Dim X2Dim X3Dim G11all G12all G13all G22all G23all G33all G
     = NonlinearEqualityConstraint3.mkHessians
         (NonlinearEqualityConstraint3.G11 G
          ++ map (fun i => Matrix_block G11all (i * X1Dim) 0 X1Dim X1Dim)
               (seq 0 n))
         (NonlinearEqualityConstraint3.G12 G
          ++ map (fun i => Matrix_block G12all (i * X1Dim) 0 X1Dim X2Dim)
               (seq 0 n))
         (NonlinearEqualityConstraint3.G13 G
          ++ map (fun i => Matrix_block G13all (i * X1Dim) 0 X1Dim X3Dim)
               (seq 0 n))
         (NonlinearEqualityConstraint3.G22 G
          ++ map (fun i => Matrix_block G22all (i * X2Dim) 0 X2Dim X2Dim)
               (seq 0 n))
         (NonlinearEqualityConstraint3.G23 G
          ++ map (fun i => Matrix_block G23all (i * X2Dim) 0 X2Dim X3Dim)
               (seq 0 n))
         (NonlinearEqualityConstraint3.G33 G
          ++ map (fun i => Matrix_block G33all (i * X3Dim) 0 X3Dim X3Dim)
               (seq 0 n))).
Proof.
  split; [|split]; intros G.
  - apply iterate_from_push.
  - apply evaluateHessians2_default_from.
  - apply evaluateHessians3_default_from.
Qed.

End DefaultHessians.

(* ====================================================================== *)
(** * Part IX: the further properties on concrete constraints *)
(* ====================================================================== *)

Lemma multipliedHessian1_value_witness :
  NonlinearEqualityConstraint1.multipliedHessian c1_two x0 duals2 []
  = (Returned
       (Some (@mkHessianFactor ZEnv [1%N] [[[1%Z]]] [[0%Z]] 100%Z)),
     [ValuesAt 1%N; DualsAt 10%N; EvaluateHessians]).
Proof.
  exact (@multipliedHessian1_value ZEnv ZEnv_shapes c1_two x0 duals2 [] 5%Z
           [3%Z; (-1)%Z] [[2%Z]]
           eq_refl eq_refl eq_refl eq_refl eq_refl eq_refl).
Defined.

Lemma multipliedHessian2_value_witness :
  NonlinearEqualityConstraint2.multipliedHessian c2 x0 duals1 []
  = (Returned
       (Some (@mkHessianFactor ZEnv [1%N; 2%N]
                [[[(-6)%Z]]; [[0%Z]]; [[(-12)%Z]]] [[0%Z]; [0%Z]] 0%Z)),
     [ValuesAt 1%N; ValuesAt 2%N; DualsAt 10%N; EvaluateHessians]).
Proof.
  exact (@multipliedHessian2_value ZEnv ZEnv_shapes c2 x0 duals1 []
           5%Z 5%Z [3%Z] [[2%Z]] [[0%Z]] [[4%Z]]
           eq_refl eq_refl eq_refl eq_refl eq_refl eq_refl eq_refl
           eq_refl eq_refl eq_refl eq_refl eq_refl eq_refl).
Defined.

Lemma multipliedHessian3_value_witness :
  exists hf,
    NonlinearEqualityConstraint3.multipliedHessian c3 x0 duals1 []
    = (Returned (Some hf),
       [ValuesAt 1%N; ValuesAt 2%N; ValuesAt 3%N; DualsAt 10%N;
        EvaluateHessians])
    /\ @G_blocks ZEnv hf
       = [[[(-6)%Z]]; [[0%Z]]; [[(-3)%Z]]; [[(-12)%Z]]; [[0%Z]];
          [[(-18)%Z]]]
    /\ @g_terms ZEnv hf = [[0%Z]; [0%Z]; [0%Z]]
    /\ @f_term ZEnv hf = 0%Z.
Proof.
  exact (@multipliedHessian3_value ZEnv ZEnv_shapes c3 x0 duals1 []
           5%Z 5%Z 5%Z [3%Z]
           [[2%Z]] [[0%Z]] [[1%Z]] [[4%Z]] [[0%Z]] [[6%Z]]
           eq_refl eq_refl eq_refl eq_refl eq_refl
           eq_refl eq_refl eq_refl eq_refl eq_refl eq_refl
           eq_refl eq_refl eq_refl eq_refl eq_refl eq_refl
           eq_refl eq_refl eq_refl eq_refl eq_refl eq_refl).
Defined.

Lemma multipliedHessian_calls_witness :
  snd (NonlinearEqualityConstraint1.multipliedHessian c1_empty x0 duals1 [])
  = [ValuesAt 1%N; DualsAt 10%N; EvaluateHessians]
  /\ snd (NonlinearEqualityConstraint2.multipliedHessian c2 x0 duals2 [])
     = [ValuesAt 1%N; ValuesAt 2%N; DualsAt 10%N; EvaluateHessians]
  /\ snd (NonlinearEqualityConstraint3.multipliedHessian c3 x0 duals1 [])
     = [ValuesAt 1%N; ValuesAt 2%N; ValuesAt 3%N; DualsAt 10%N;
        EvaluateHessians].
Proof.
  split; [|split].
  - apply (proj1 (@multipliedHessian_calls ZEnv)
             c1_empty x0 duals1 [] 5%Z [3%Z]); reflexivity.
  - apply (proj1 (proj2 (@multipliedHessian_calls ZEnv))
             c2 x0 duals2 [] 5%Z 5%Z [3%Z; (-1)%Z]); reflexivity.
  - apply (proj2 (proj2 (@multipliedHessian_calls ZEnv))
             c3 x0 duals1 [] 5%Z 5%Z 5%Z [3%Z]); reflexivity.
Defined.

Lemma multipliedHessian_missing_value_witness :
  NonlinearEqualityConstraint1.multipliedHessian c1 (x_without 1%N) duals1 []
  = (Threw (key_not_found 1%N), [ValuesAt 1%N])
  /\ NonlinearEqualityConstraint2.multipliedHessian c2 (x_without 2%N)
       duals1 []
     = (Threw (key_not_found 2%N), [ValuesAt 1%N; ValuesAt 2%N])
  /\ NonlinearEqualityConstraint3.multipliedHessian c3 (x_without 3%N)
       duals1 []
     = (Threw (key_not_found 3%N),
        [ValuesAt 1%N; ValuesAt 2%N; ValuesAt 3%N]).
Proof.
  split; [|split].
  - apply (proj1 (@multipliedHessian_missing_value ZEnv)
             c1 (x_without 1%N) duals1 []); reflexivity.
  - apply (proj2 (proj1 (proj2 (@multipliedHessian_missing_value ZEnv))
                    c2 (x_without 2%N) duals1 [] eq_refl) 5%Z);
      reflexivity.
  - apply (proj2 (proj2 (proj2 (proj2
                    (@multipliedHessian_missing_value ZEnv))
                    c3 (x_without 3%N) duals1 [] eq_refl)) 5%Z 5%Z);
      reflexivity.
Defined.

Lemma multipliedHessian_missing_dual_witness :
  NonlinearEqualityConstraint1.multipliedHessian c1 x0 duals_none []
  = (Threw (key_not_found 10%N), [ValuesAt 1%N; DualsAt 10%N])
  /\ NonlinearEqualityConstraint2.multipliedHessian c2 x0 duals_none []
     = (Threw (key_not_found 10%N),
        [ValuesAt 1%N; ValuesAt 2%N; DualsAt 10%N])
  /\ NonlinearEqualityConstraint3.multipliedHessian c3 x0 duals_none []
     = (Threw (key_not_found 10%N),
        [ValuesAt 1%N; ValuesAt 2%N; ValuesAt 3%N; DualsAt 10%N]).
Proof.
  split; [|split].
  - apply (proj1 (@multipliedHessian_missing_dual ZEnv)
             c1 x0 duals_none [] 5%Z); reflexivity.
  - apply (proj1 (proj2 (@multipliedHessian_missing_dual ZEnv))
             c2 x0 duals_none [] 5%Z 5%Z); reflexivity.
  - apply (proj2 (proj2 (@multipliedHessian_missing_dual ZEnv))
             c3 x0 duals_none [] 5%Z 5%Z 5%Z); reflexivity.
Defined.

Lemma multipliedHessian_no_component_witness :
  fst (NonlinearEqualityConstraint1.multipliedHessian c1_empty x0 duals0 [])
  = Undefined
  /\ fst (NonlinearEqualityConstraint2.multipliedHessian c2 x0 duals0 [])
     = Threw (runtime_error dimension_error)
  /\ fst (NonlinearEqualityConstraint3.multipliedHessian c3 x0 duals0 [])
     = Threw (runtime_error dimension_error).
Proof.
  split; [|split].
  - apply (proj1 (proj1 (@multipliedHessian_no_component ZEnv)
                    c1_empty x0 duals0 [] 5%Z [] eq_refl eq_refl eq_refl
                    eq_refl)).
    reflexivity.
  - apply (proj2 (proj1 (proj2 (@multipliedHessian_no_component ZEnv))
                    c2 x0 duals0 [] 5%Z 5%Z [] eq_refl eq_refl eq_refl
                    eq_refl eq_refl)).
    left. simpl. lia.
  - apply (proj2 (proj2 (proj2 (@multipliedHessian_no_component ZEnv))
                    c3 x0 duals0 [] 5%Z 5%Z 5%Z [] eq_refl eq_refl eq_refl
                    eq_refl eq_refl eq_refl)).
    left. simpl. lia.
Defined.

